(** * SteganoCrypt: the LSB steganography codec of [steganography_tool.py]

  A shallow embedding of [SteganographyEngine] (bit-stream codec, file
  frame, password gate, LSB embedding and scanning) and of the frame
  parsing done by [SteganographyGUI.extract_data] and
  [SteganographyGUI.extract_file_data], with the properties of the codec
  stated and proved over it.

  Representation of the Python values:
  - a [str] is the list of its code points ([N]); [ord] and [chr] are the
    identity on code points;
  - a [str] over the alphabet {'0','1'} (every bit string the engine
    builds comes from [format(_, '08b')], [str(_ & 1)] or the delimiter
    literal) is a list of [bool], ['1'] being [true];
  - a [bytes] object is the list of its byte values ([N], below 256);
  - a pixel channel is a [Z], with [&] and [|] as [Z.land] and [Z.lor];
  - a password is held as the bytes of [password.encode()], the only view
    the engine takes of it besides the emptiness test. *)

From Stdlib Require Import List Bool Arith NArith ZArith Lia.
Import ListNotations.

(** ** Python sequence primitives *)

Module Py.

(** [s[i:j]] for [0 <= i <= j]: slicing clamps at the end of [s]. *)
Definition slice {A} (s : list A) (i j : nat) : list A :=
  firstn (j - i) (skipn i s).

(** [range(0, stop, step)]. *)
Definition range (stop step : nat) : list nat :=
  map (fun k => k * step) (seq 0 ((stop + step - 1) / step)).

(** [s.startswith(sub)]. *)
Fixpoint startswith (sub s : list bool) : bool :=
  match sub, s with
  | [], _ => true
  | _ :: _, [] => false
  | a :: sub', b :: s' => Bool.eqb a b && startswith sub' s'
  end.

(** [s.find(sub)]: the lowest index at which [sub] occurs in [s];
    [None] stands for the result [-1]. *)
Fixpoint find (sub s : list bool) : option nat :=
  if startswith sub s then Some 0
  else match s with
       | [] => None
       | _ :: s' => option_map S (find sub s')
       end.

End Py.

(** ** BitStreamCodec: [text_to_binary] and [binary_to_text] *)

Module BitStream.

Definition bits := list bool.
Definition text := list N.

(** A code point, or a byte value, in [0, 255]. *)
Definition fits_byte (c : N) : Prop := (c <= 255)%N.

(** Binary digits of a positive number, most significant first. *)
Fixpoint bin_pos (p : positive) : bits :=
  match p with
  | xH => [true]
  | xO q => bin_pos q ++ [false]
  | xI q => bin_pos q ++ [true]
  end.

(** [format(n, 'b')]: the minimal binary representation. *)
Definition format_b (n : N) : bits :=
  match n with
  | N0 => [false]
  | Npos p => bin_pos p
  end.

(** [format(n, '08b')]: [format(n, 'b')] padded on the left with zeros to
    a width of 8; a longer representation is left as it is. *)
Definition format_08b (n : N) : bits :=
  let s := format_b n in
  repeat false (8 - length s) ++ s.

(** [int(s, 2)] on a non-empty bit string. *)
Definition int2 (s : bits) : N :=
  fold_left (fun acc b => (2 * acc + N.b2n b)%N) s 0%N.

(** [''.join(format(ord(char), '08b') for char in text)] *)
Definition text_to_binary (t : text) : bits :=
  flat_map format_08b t.

(** [for i in range(0, len(binary), 8): byte = binary[i:i+8];
     if len(byte) == 8: text += chr(int(byte, 2))] *)
Definition binary_to_text (binary : bits) : text :=
  flat_map
    (fun i =>
       let byte := Py.slice binary i (i + 8) in
       if length byte =? 8 then [int2 byte] else [])
    (Py.range (length binary) 8).

(** [''.join(format(byte, '08b') for byte in data)] *)
Definition bytes_to_binary (data : list N) : bits :=
  flat_map format_08b data.

End BitStream.

(** ** [hashlib.sha256(...).hexdigest()]

  SHA-256 as FIPS 180-4 defines it, on byte lists, with 32-bit words held
  in [N] and their wrap-around written out. *)

Module Sha256.

Local Open Scope N_scope.

Definition wrap (x : N) : N := x mod 2 ^ 32.
Definition add32 (x y : N) : N := wrap (x + y).
Definition rotr (n x : N) : N :=
  N.lor (N.shiftr x n) (wrap (N.shiftl x (32 - n))).
Definition not32 (x : N) : N := N.lxor x 0xFFFFFFFF.

Definition ch (x y z : N) : N := N.lxor (N.land x y) (N.land (not32 x) z).
Definition maj (x y z : N) : N :=
  N.lxor (N.lxor (N.land x y) (N.land x z)) (N.land y z).
Definition big_sigma0 (x : N) : N :=
  N.lxor (N.lxor (rotr 2 x) (rotr 13 x)) (rotr 22 x).
Definition big_sigma1 (x : N) : N :=
  N.lxor (N.lxor (rotr 6 x) (rotr 11 x)) (rotr 25 x).
Definition small_sigma0 (x : N) : N :=
  N.lxor (N.lxor (rotr 7 x) (rotr 18 x)) (N.shiftr x 3).
Definition small_sigma1 (x : N) : N :=
  N.lxor (N.lxor (rotr 17 x) (rotr 19 x)) (N.shiftr x 10).

(** The first primes, by trial division. *)
Definition is_prime (n : N) : bool :=
  (1 <? n) && forallb (fun d => negb (n mod d =? 0))
                      (map N.of_nat (seq 2 (N.to_nat n - 2))).

Definition primes_upto (n : nat) : list N :=
  filter is_prime (map N.of_nat (seq 2 (n - 1))).

(** Integer cube root, one bit at a time from bit [k - 1] down. *)
Fixpoint cbrt_bits (k : nat) (x r : N) : N :=
  match k with
  | O => r
  | S k' =>
      let c := r + 2 ^ N.of_nat k' in
      cbrt_bits k' x (if c * c * c <=? x then c else r)
  end.

(** The first 32 bits of the fractional part of the square root and of the
    cube root of [p]. *)
Definition frac_sqrt (p : N) : N := wrap (N.sqrt (p * 2 ^ 64)).
Definition frac_cbrt (p : N) : N := wrap (cbrt_bits 40 (p * 2 ^ 96) 0).

(** The round constants: from the cube roots of the first 64 primes. *)
Definition K : list N := Eval vm_compute in map frac_cbrt (primes_upto 311).

(** The eight working words. *)
Record hstate := HState {
  ha : N; hb : N; hc : N; hd : N; he : N; hf : N; hg : N; hh : N }.

Definition initial_words : list N :=
  Eval vm_compute in map frac_sqrt (primes_upto 19).

(** The initial hash value: from the square roots of the first 8 primes. *)
Definition H0 : hstate :=
  match initial_words with
  | [a; b; c; d; e; f; g; h] => HState a b c d e f g h
  | _ => HState 0 0 0 0 0 0 0 0
  end.

(** Padding: a [0x80] byte, zeros up to 56 modulo 64, then the bit length
    of the message as a 64-bit big-endian number. *)
Definition be_bytes (width : nat) (x : N) : list N :=
  map (fun i => (x / 256 ^ N.of_nat (width - 1 - i)) mod 256) (seq 0 width).

Definition pad (msg : list N) : list N :=
  let l := length msg in
  msg ++ [0x80]
      ++ repeat 0 ((119 - l mod 64) mod 64)
      ++ be_bytes 8 (8 * N.of_nat l).

Definition be_word (bs : list N) : N :=
  fold_left (fun acc b => 256 * acc + b) bs 0.

(** The sixteen big-endian words of a 64-byte block. *)
Definition block_words (block : list N) : list N :=
  map (fun i => be_word (firstn 4 (skipn (4 * i) block))) (seq 0 16).

(** Message schedule: [n] more words after the ones in [w]. *)
Fixpoint schedule (n : nat) (w : list N) : list N :=
  match n with
  | O => w
  | S n' =>
      let t := length w in
      let x := add32 (add32 (small_sigma1 (nth (t - 2) w 0)) (nth (t - 7) w 0))
                     (add32 (small_sigma0 (nth (t - 15) w 0)) (nth (t - 16) w 0)) in
      schedule n' (w ++ [x])
  end.

Definition round (s : hstate) (kw : N * N) : hstate :=
  let (k, w) := kw in
  let t1 := add32 (add32 (add32 (hh s) (big_sigma1 (he s)))
                         (add32 (ch (he s) (hf s) (hg s)) k)) w in
  let t2 := add32 (big_sigma0 (ha s)) (maj (ha s) (hb s) (hc s)) in
  HState (add32 t1 t2) (ha s) (hb s) (hc s)
         (add32 (hd s) t1) (he s) (hf s) (hg s).

Definition compress (s : hstate) (block : list N) : hstate :=
  let r := fold_left round (combine K (schedule 48 (block_words block))) s in
  HState (add32 (ha s) (ha r)) (add32 (hb s) (hb r))
         (add32 (hc s) (hc r)) (add32 (hd s) (hd r))
         (add32 (he s) (he r)) (add32 (hf s) (hf r))
         (add32 (hg s) (hg r)) (add32 (hh s) (hh r)).

Fixpoint blocks (fuel : nat) (s : hstate) (msg : list N) : hstate :=
  match fuel, msg with
  | S fuel', _ :: _ => blocks fuel' (compress s (firstn 64 msg)) (skipn 64 msg)
  | _, _ => s
  end.

(** [sha256(msg).digest()]: 32 bytes. *)
Definition digest (msg : list N) : list N :=
  let p := pad msg in
  let s := blocks (length p) H0 p in
  flat_map (be_bytes 4)
    [ha s; hb s; hc s; hd s; he s; hf s; hg s; hh s].

(** One of ['0'..'9'], ['a'..'f'], as a code point. *)
Definition hex_digit (n : N) : N :=
  if n <? 10 then 48 + n else 87 + n.

(** The code points of ['0'..'9'] and ['a'..'f']. *)
Definition is_hex_digit (c : N) : bool :=
  ((48 <=? c) && (c <=? 57)) || ((97 <=? c) && (c <=? 102)).

(** [sha256(msg).hexdigest()]: two lower-case hex digits per byte. *)
Definition hexdigest (msg : list N) : list N :=
  flat_map (fun b => [hex_digit (b / 16); hex_digit (b mod 16)]) (digest msg).

End Sha256.

(** ** [SteganographyEngine]: frame building, embedding, extraction *)

Module Engine.

Import BitStream.

(** *** Images

    The engine works on the decoded pixel grid.  After the mode
    normalisation at the head of both [embed_data_in_image] and
    [extract_data_from_image] (anything that is neither ['RGBA'] nor
    ['RGB'] is handed to PIL's [convert('RGB')]) an image is a list of
    3-tuples or a list of 4-tuples, in the row-major order of
    [img.getdata()]. *)

Definition rgb : Type := Z * Z * Z.
Definition rgba : Type := Z * Z * Z * Z.

Inductive pixel_data : Type :=
| RGB (pixels : list rgb)
| RGBA (pixels : list rgba).

Record image := Image {
  size : nat * nat;          (* [img.size]: width, height *)
  getdata : pixel_data }.

Definition channels (img : image) : nat :=
  match getdata img with RGBA _ => 4 | RGB _ => 3 end.

Definition pixel_count (img : image) : nat :=
  match getdata img with RGBA px => length px | RGB px => length px end.

(** The channels of each pixel in the order the loops visit them: R, G, B,
    then A when present; and all of them, pixel after pixel. *)
Definition pixel_rows (img : image) : list (list Z) :=
  match getdata img with
  | RGBA px => map (fun '(r, g, b, a) => [r; g; b; a]) px
  | RGB px => map (fun '(r, g, b) => [r; g; b]) px
  end.

Definition channel_values (img : image) : list Z := concat (pixel_rows img).

(** What PIL hands over: [width * height] pixels, 8 bits per channel. *)
Definition byte_range (c : Z) : bool := (0 <=? c)%Z && (c <=? 255)%Z.

Definition in_byte_range (c : Z) : Prop := (0 <= c <= 255)%Z.

Definition valid_image (img : image) : bool :=
  (pixel_count img =? fst (size img) * snd (size img))
  && match getdata img with
     | RGB px =>
         forallb (fun '(r, g, b) => byte_range r && byte_range g && byte_range b) px
     | RGBA px =>
         forallb (fun '(r, g, b, a) =>
                    byte_range r && byte_range g && byte_range b && byte_range a) px
     end.

(** The files [new_img.save] writes: the container and the image that
    [Image.open] gives back from it (PNG and BMP are lossless). *)
Inductive container := PNG | BMP.

Record file := File { format : container; contents : image }.

Definition open (f : file) : image := contents f.

(** PIL's [convert('RGB')] of an ['RGBA'] image keeps the three colour
    bands and discards the alpha band. *)
Definition convert_RGB (img : image) : image :=
  match getdata img with
  | RGB _ => img
  | RGBA px => Image (size img) (RGB (map (fun '(r, g, b, _) => (r, g, b)) px))
  end.

(** [os.path.splitext(output_path)[1].lower()], by the cases the engine
    tells apart. *)
Inductive output_ext := ExtPng | ExtEmpty | ExtBmp | ExtOther.

(** *** The bit layout *)

(** ["1111111111111110"] *)
Definition delimiter : bits :=
  [true; true; true; true; true; true; true; true;
   true; true; true; true; true; true; true; false].

(** [hashlib.sha256(password.encode()).hexdigest()] *)
Definition password_hash (password : list N) : text :=
  Sha256.hexdigest password.

(** The password gate of [embed_data_in_image]: [if password: ...
    data = password_hash_binary + data]. *)
Definition protect (password : list N) (data : bits) : bits :=
  match password with
  | [] => data
  | _ :: _ => text_to_binary (password_hash password) ++ data
  end.

(** *** [file_to_binary]

    [file_data] is the content read from the file and [filename] its
    base name.  [struct.pack('<II', ...)] raises when a length does not
    fit 32 bits; [None] stands for that exception.  The third component
    is the file size ([str(file_size)] in the source). *)

Definition u32_le (n : N) : list N :=
  [ (n mod 256)%N; (n / 256 mod 256)%N;
    (n / 65536 mod 256)%N; (n / 16777216 mod 256)%N ].

Definition pack_II (x y : N) : option (list N) :=
  if ((x <? 2 ^ 32) && (y <? 2 ^ 32))%N then Some (u32_le x ++ u32_le y)
  else None.

Definition file_to_binary (filename : text) (file_data : list N)
  : option (bits * text * N) :=
  let file_size := N.of_nat (length file_data) in
  let filename_binary := text_to_binary filename in
  let file_data_binary := bytes_to_binary file_data in
  let filename_length := N.of_nat (length filename) in
  match pack_II filename_length file_size with
  | None => None
  | Some header =>
      let header_binary := bytes_to_binary header in
      Some (header_binary ++ filename_binary ++ file_data_binary,
            filename, file_size)
  end.

(** *** [embed_data_in_image] *)

(** One channel of the loop body:
    [if data_index < len(data_with_delimiter):
       c = (c & 0xFE) | int(data_with_delimiter[data_index]); data_index += 1] *)
Definition set_lsb (c : Z) (bit : bool) : Z :=
  Z.lor (Z.land c 0xFE) (Z.b2z bit).

Definition put (d : bits) (c : Z) (data_index : nat) : Z * nat :=
  if data_index <? length d
  then (set_lsb c (nth data_index d false), S data_index)
  else (c, data_index).

Fixpoint embed_rgb (d : bits) (data_index : nat) (pixels : list rgb) : list rgb :=
  match pixels with
  | [] => []
  | (r, g, b) :: rest =>
      let (r, i1) := put d r data_index in
      let (g, i2) := put d g i1 in
      let (b, i3) := put d b i2 in
      (r, g, b) :: embed_rgb d i3 rest
  end.

Fixpoint embed_rgba (d : bits) (data_index : nat) (pixels : list rgba) : list rgba :=
  match pixels with
  | [] => []
  | (r, g, b, a) :: rest =>
      let (r, i1) := put d r data_index in
      let (g, i2) := put d g i1 in
      let (b, i3) := put d b i2 in
      let (a, i4) := put d a i3 in
      (r, g, b, a) :: embed_rgba d i4 rest
  end.

(** The loop seen on the flat sequence of channels: the bits of [d] go,
    in order, into the least significant bits of the first [len(d)]
    channels. *)
Fixpoint overwrite (d : bits) (cs : list Z) : list Z :=
  match d, cs with
  | bit :: d', c :: cs' => set_lsb c bit :: overwrite d' cs'
  | _, _ => cs
  end.

(** [modified_pixels], put into a new image of the same mode and size. *)
Definition embed_pixels (d : bits) (img : image) : image :=
  match getdata img with
  | RGBA px => Image (size img) (RGBA (embed_rgba d 0 px))
  | RGB px => Image (size img) (RGB (embed_rgb d 0 px))
  end.

(** The output format selection at the end of [embed_data_in_image]:
    PNG for ['.png'] and for no extension, BMP for ['.bmp'] (after
    [if channels == 4: new_img = new_img.convert('RGB')]), PNG for anything
    else. *)
Definition save (channels : nat) (new_img : image) (ext : output_ext) : file :=
  match ext with
  | ExtPng | ExtEmpty => File PNG new_img
  | ExtBmp =>
      if channels =? 4 then File BMP (convert_RGB new_img)
      else File BMP new_img
  | ExtOther => File PNG new_img
  end.

(** The written file keeps every channel of [new_img] unless an RGBA image
    goes to BMP. *)
Definition keeps_channels (img : image) (ext : output_ext) : Prop :=
  channels img = 3 \/ ext <> ExtBmp.

(** The number of bits [embed_data_in_image] compares with the capacity:
    512 digest bits when a password is given, the payload, 16 delimiter
    bits. *)
Definition required_bits (data : bits) (password : list N) : nat :=
  match password with [] => 0 | _ :: _ => 512 end + length data + 16.

(** The result is the returned [bool] and the file written, if any. *)
Definition embed_data_in_image (img : image) (data : bits)
           (ext : output_ext) (password : list N) : bool * option file :=
  let data := protect password data in
  let data_with_delimiter := data ++ delimiter in
  let max_capacity := pixel_count img * channels img in
  if max_capacity <? length data_with_delimiter then (false, None)
  else
    let new_img := embed_pixels data_with_delimiter img in
    (true, Some (save (channels img) new_img ext)).

(** *** [extract_data_from_image] *)

(** [str(c & 1)] *)
Definition lsb (c : Z) : bool := (Z.land c 1 =? 1)%Z.

(** [binary_data] after the scanning loop. *)
Definition scan (img : image) : bits :=
  match getdata img with
  | RGBA px => flat_map (fun '(r, g, b, a) => [lsb r; lsb g; lsb b; lsb a]) px
  | RGB px => flat_map (fun '(r, g, b) => [lsb r; lsb g; lsb b]) px
  end.

(** The password gate of [extract_data_from_image]. *)
Definition verify (password : list N) (extracted_data : bits) : option bits :=
  match password with
  | [] => Some extracted_data
  | _ :: _ =>
      let hash_length := length (text_to_binary (password_hash password)) in
      if length extracted_data <? hash_length then None
      else
        let stored_hash_binary := firstn hash_length extracted_data in
        let stored_hash := binary_to_text stored_hash_binary in
        if list_eq_dec N.eq_dec stored_hash (password_hash password)
        then Some (skipn hash_length extracted_data)
        else None
  end.

Definition extract_data_from_image (img : image) (password : list N)
  : option bits :=
  let binary_data := scan img in
  match Py.find delimiter binary_data with
  | None => None
  | Some delimiter_index =>
      let extracted_data := firstn delimiter_index binary_data in
      verify password extracted_data
  end.

(** What reading three channels per pixel finds in a stream that was
    written four channels per pixel: every fourth bit is gone. *)
Fixpoint drop_fourth (s : bits) : bits :=
  match s with
  | a :: b :: c :: _ :: rest => a :: b :: c :: drop_fourth rest
  | _ => s
  end.

End Engine.

(** ** [SteganographyGUI]: what [extract_data] does with the extracted bits *)

Module GUI.

Import BitStream.

(** What the extraction tab ends up showing: the error box, the text put
    into the results pane, or the file kept in [extracted_filename] and
    [extracted_file_data] (with the declared size that is displayed). *)
Inductive outcome :=
| NoHiddenData
| TextExtracted (text_data : text)
| FileExtracted (filename : text) (file_size : N) (file_data : list N)
| FileError.

(** [bytes(int(b[i:i+8], 2) for i in range(0, n, 8))]: [int('', 2)]
    raises, which [None] stands for. *)
Fixpoint bytes_of_groups (groups : list bits) : option (list N) :=
  match groups with
  | [] => Some []
  | [] :: _ => None
  | g :: rest =>
      match bytes_of_groups rest with
      | Some bs => Some (int2 g :: bs)
      | None => None
      end
  end.

Definition bytes_of_bits (b : bits) (n : nat) : option (list N) :=
  bytes_of_groups (map (fun i => Py.slice b i (i + 8)) (Py.range n 8)).

Definition u32_of_le (bs : list N) : N :=
  fold_right (fun b acc => (b + 256 * acc)%N) 0%N bs.

(** [struct.unpack('<II', header_bytes)]: raises unless there are
    exactly 8 bytes. *)
Definition unpack_II (header_bytes : list N) : option (N * N) :=
  if length header_bytes =? 8
  then Some (u32_of_le (firstn 4 header_bytes), u32_of_le (skipn 4 header_bytes))
  else None.

Definition parse_header (binary_data : bits) : option (N * N) :=
  let header_binary := firstn 64 binary_data in
  match bytes_of_bits header_binary 64 with
  | None => None
  | Some header_bytes => unpack_II header_bytes
  end.

(** [extract_file_data]: any exception ends in the error box. *)
Definition extract_file_data (binary_data : bits) : outcome :=
  match parse_header binary_data with
  | None => FileError
  | Some (filename_length, file_size) =>
      let filename_start := 64 in
      let filename_end := filename_start + N.to_nat filename_length * 8 in
      let filename_binary := Py.slice binary_data filename_start filename_end in
      let filename := binary_to_text filename_binary in
      let file_data_binary :=
        Py.slice binary_data filename_end (filename_end + N.to_nat file_size * 8) in
      match bytes_of_bits file_data_binary (length file_data_binary) with
      | None => FileError
      | Some file_data => FileExtracted filename file_size file_data
      end
  end.

(** The body of [extract_thread], from the result of
    [extract_data_from_image] on. *)
Definition extract_data (extracted : option bits) : outcome :=
  match extracted with
  | None => NoHiddenData
  | Some binary_data =>
      let as_file :=
        if 64 <=? length binary_data then
          match parse_header binary_data with
          | Some (filename_length, file_size) =>
              if ((0 <? filename_length) && (filename_length <? 1000)
                  && (0 <? file_size))%N
              then Some (extract_file_data binary_data)
              else None
          | None => None
          end
        else None in
      match as_file with
      | Some shown => shown
      | None => TextExtracted (binary_to_text binary_data)
      end
  end.

End GUI.

(** ** [SteganographyGUI]: previews and image analysis *)

Module Analysis.

Import BitStream Engine.

(** [load_image_preview]: the capacity in bytes shown under the cover
    preview, [(width * height * 4) // 8] for ['RGBA'] and
    [(width * height * 3) // 8] for every other mode. *)
Definition preview_capacity (img : image) : nat :=
  match getdata img with
  | RGBA _ => (fst (size img) * snd (size img) * 4) / 8
  | RGB _ => (fst (size img) * snd (size img) * 3) / 8
  end.

(** The truth value of an [Optional[str]]: [None] and [''] are false. *)
Definition truthy (x : option bits) : bool :=
  match x with
  | Some (_ :: _) => true
  | _ => false
  end.

(** [["password", "123456", "secret", "hidden"]], as UTF-8 bytes. *)
Definition common_passwords : list (list N) :=
  [ [112; 97; 115; 115; 119; 111; 114; 100];
    [49; 50; 51; 52; 53; 54];
    [115; 101; 99; 114; 101; 116];
    [104; 105; 100; 100; 101; 110] ]%N.

(** The three lines the detection step of [analyze_image] can append:
    "HIDDEN DATA DETECTED! (No password required)", "HIDDEN DATA DETECTED!
    (Password protected)", "No obvious hidden data found". *)
Inductive detection :=
| DetectedNoPassword
| DetectedPasswordProtected
| NothingFound.

(** The detection step of [analyze_image]: extraction with the empty
    password, then with each common password until one gives a true
    value. *)
Definition detect_hidden_data (img : image) : detection :=
  if truthy (extract_data_from_image img []) then DetectedNoPassword
  else if existsb (fun pwd => truthy (extract_data_from_image img pwd))
                  common_passwords
       then DetectedPasswordProtected
       else NothingFound.

(** The sampling loop of [analyze_image]:
    [for i in range(0, min(1000, len(pixels)), 10):
       if img.mode == 'RGB': r, g, b = pixels[i];
                             lsb_bits.extend([r & 1, g & 1, b & 1])].
    [None] stands for the [IndexError] of [pixels[i]]. *)
Fixpoint sample_at (pixels : list rgb) (indices : list nat) : option (list Z) :=
  match indices with
  | [] => Some []
  | i :: rest =>
      match nth_error pixels i, sample_at pixels rest with
      | Some (r, g, b), Some more =>
          Some (Z.land r 1 :: Z.land g 1 :: Z.land b 1 :: more)
      | _, _ => None
      end
  end.

(** The image as [Image.open] gives it to [analyze_image], which converts
    no mode: the loop reads pixel tuples only when the mode is ['RGB']; for
    every other mode (['RGBA'], ['L'], ['P'], ...) only the number of
    pixels plays a part. *)
Inductive opened_image :=
| OpenedRGB (pixels : list rgb)
| OpenedOther (pixel_count : nat).

(** [lsb_bits] after the loop ([[]] when there is no pixel and the loop is
    not entered). *)
Definition lsb_bits (img : opened_image) : option (list Z) :=
  match img with
  | OpenedRGB pixels =>
      if 0 <? length pixels
      then sample_at pixels (Py.range (Nat.min 1000 (length pixels)) 10)
      else Some []
  | OpenedOther n =>
      if 0 <? n
      then Some (flat_map (fun _ : nat => []) (Py.range (Nat.min 1000 n) 10))
      else Some []
  end.

End Analysis.

(** ** Sample inputs *)

Module Samples.

Import BitStream Engine.

(** A 6 x 1 RGBA cover: 24 bits of capacity. *)
Definition cover_rgba_6 : image :=
  Image (6, 1) (RGBA (repeat (0, 0, 0, 255)%Z 6)).

(** A 179 x 1 RGB cover: 537 bits of capacity. *)
Definition cover_rgb_179 : image :=
  Image (179, 1) (RGB (repeat (10, 20, 30)%Z 179)).

(** A 10 x 10 RGB cover: 300 bits of capacity. *)
Definition cover_rgb_10x10 : image :=
  Image (10, 10) (RGB (repeat (200, 100, 50)%Z 100)).

(** The text ["A"]. *)
Definition text_A : text := [65%N].

(** The UTF-8 bytes of the passwords ["abc123"] and ["secret"]. *)
Definition pw_abc123 : list N := [97; 98; 99; 49; 50; 51]%N.
Definition pw_secret : list N := [115; 101; 99; 114; 101; 116]%N.

(** The file name ["a.txt"] and the content ["app"]. *)
Definition name_a_txt : text := [97; 46; 116; 120; 116]%N.
Definition content_app : list N := [97; 112; 112]%N.

(** The text ["Hi there!"]. *)
Definition text_hi_there : text := [72; 105; 32; 116; 104; 101; 114; 101; 33]%N.

(** A 9-character text whose first 8 code points read as a frame header:
    a file name of 1 character and a content of 1 byte. *)
Definition text_like_header : text := [1; 0; 0; 0; 1; 0; 0; 0; 65]%N.

(** A content that starts with the UTF-16 byte order mark [FF FE]. *)
Definition content_utf16 : list N := [255; 254; 72; 0; 105; 0]%N.

(** A 6 x 1 RGB image whose least significant bits are the delimiter
    pattern followed by two zeros. *)
Definition image_delimiter_only : image :=
  Image (6, 1) (RGB (repeat (1, 1, 1)%Z 5 ++ [(0, 0, 0)%Z])).

(** A 100 x 4 RGBA cover: 1600 bits of capacity. *)
Definition cover_rgba_400 : image :=
  Image (100, 4) (RGBA (repeat (1, 2, 3, 255)%Z 400)).

End Samples.

(** * Properties *)

(** ** Substring search *)

Module PyFacts.

Import Py.

Lemma startswith_app sub r : startswith sub (sub ++ r) = true.
Proof.
  induction sub as [|a sub IH]; simpl; [reflexivity|].
  now rewrite Bool.eqb_reflx, IH.
Qed.

Lemma startswith_split sub s :
  startswith sub s = true -> s = sub ++ skipn (length sub) s.
Proof.
  revert s; induction sub as [|a sub IH]; intros [|b s]; simpl;
    try reflexivity; try discriminate.
  intros H. apply andb_prop in H as [Hab Hs].
  apply Bool.eqb_prop in Hab. subst b. f_equal. now apply IH.
Qed.

Lemma startswith_length sub s :
  startswith sub s = true -> length sub <= length s.
Proof.
  intros H. rewrite (startswith_split _ _ H) at 1.
  rewrite length_app. lia.
Qed.

Lemma startswith_app_long sub s r :
  length sub <= length s -> startswith sub (s ++ r) = startswith sub s.
Proof.
  revert s; induction sub as [|a sub IH]; intros [|b s] Hl; simpl in *;
    try reflexivity; try lia.
  rewrite IH by lia. reflexivity.
Qed.

Lemma startswith_app_mono sub s r :
  startswith sub s = true -> startswith sub (s ++ r) = true.
Proof.
  intros H. rewrite startswith_app_long; auto using startswith_length.
Qed.

(** [find] returns the first index at which [sub] occurs. *)
Lemma find_Some sub s i :
  find sub s = Some i ->
  startswith sub (skipn i s) = true
  /\ (forall j, j < i -> startswith sub (skipn j s) = false)
  /\ i + length sub <= length s.
Proof.
  revert i; induction s as [|b s IH]; intros i; simpl.
  - destruct (startswith sub []) eqn:E; [|discriminate].
    intros [= <-]. simpl. split; [exact E|]. split; [lia|].
    apply startswith_length in E. simpl in *. lia.
  - destruct (startswith sub (b :: s)) eqn:E.
    + intros [= <-]. simpl. split; [exact E|]. split; [lia|].
      apply startswith_length in E. simpl in *. lia.
    + destruct (find sub s) as [k|] eqn:F; simpl; [|discriminate].
      intros [= <-]. destruct (IH k eq_refl) as (H1 & H2 & H3).
      simpl. split; [exact H1|]. split; [|lia].
      intros [|j] Hj; simpl; [exact E|]. apply H2. lia.
Qed.

Lemma find_None sub s :
  find sub s = None -> forall j, startswith sub (skipn j s) = false.
Proof.
  induction s as [|b s IH]; simpl.
  - destruct (startswith sub []) eqn:E; [discriminate|].
    intros _ j. now rewrite skipn_nil.
  - destruct (startswith sub (b :: s)) eqn:E; [discriminate|].
    destruct (find sub s) eqn:F; simpl; [discriminate|].
    intros _ [|j]; simpl; auto.
Qed.

Lemma find_first sub s i :
  startswith sub (skipn i s) = true ->
  (forall j, j < i -> startswith sub (skipn j s) = false) ->
  find sub s = Some i.
Proof.
  intros H1 H2. destruct (find sub s) as [k|] eqn:F.
  - apply find_Some in F as (K1 & K2 & _).
    destruct (Nat.lt_trichotomy i k) as [L|[L|L]]; [|now subst|].
    + rewrite (K2 _ L) in H1. discriminate.
    + rewrite (H2 _ L) in K1. discriminate.
  - rewrite (find_None _ _ F) in H1. discriminate.
Qed.

(** What follows the first occurrence has no say in where it is. *)
Lemma find_app_Some sub s r i :
  find sub s = Some i -> find sub (s ++ r) = Some i.
Proof.
  intros F. apply find_Some in F as (K1 & K2 & K3).
  apply find_first.
  - rewrite skipn_app. replace (i - length s) with 0 by lia.
    now apply startswith_app_mono.
  - intros j Hj. rewrite skipn_app. replace (j - length s) with 0 by lia.
    simpl. rewrite startswith_app_long; [now apply K2|].
    rewrite length_skipn. lia.
Qed.

(** [startswith] says that the first [len(sub)] elements are [sub]. *)
Lemma startswith_firstn sub s :
  startswith sub s = true <-> firstn (length sub) s = sub.
Proof.
  split; intros H.
  - rewrite (startswith_split _ _ H) at 1.
    rewrite firstn_app, Nat.sub_diag, firstn_all. simpl. apply app_nil_r.
  - rewrite <- (firstn_skipn (length sub) s), H. apply startswith_app.
Qed.

Lemma startswith_false_firstn sub s :
  startswith sub s = false <-> firstn (length sub) s <> sub.
Proof.
  rewrite <- startswith_firstn. destruct (startswith sub s); split;
    congruence.
Qed.

(** An occurrence anywhere is found, there or earlier. *)
Lemma find_exists sub s j :
  startswith sub (skipn j s) = true ->
  exists i, find sub s = Some i /\ i <= j.
Proof.
  intros H. destruct (find sub s) as [i|] eqn:F.
  - exists i. split; [reflexivity|].
    apply find_Some in F as (_ & M & _).
    destruct (le_gt_dec i j) as [L|L]; [exact L|].
    rewrite (M _ L) in H. discriminate.
  - rewrite (find_None _ _ F) in H. discriminate.
Qed.

(** Without any occurrence the search fails. *)
Lemma find_absent sub s :
  (forall j, startswith sub (skipn j s) = false) -> find sub s = None.
Proof.
  intros H. destruct (find sub s) as [i|] eqn:F; [|reflexivity].
  apply find_Some in F as (O & _). rewrite H in O. discriminate.
Qed.

End PyFacts.

(** ** The bit-stream codec *)

Module BitStreamFacts.

Import BitStream.

Lemma int2_snoc s b : int2 (s ++ [b]) = (2 * int2 s + N.b2n b)%N.
Proof. unfold int2. now rewrite fold_left_app. Qed.

Lemma int2_bin_pos p : int2 (bin_pos p) = Npos p.
Proof.
  induction p as [p IH|p IH|]; simpl; [| |reflexivity];
    rewrite int2_snoc, IH; simpl; lia.
Qed.

Lemma int2_format_b n : int2 (format_b n) = n.
Proof. destruct n; [reflexivity|apply int2_bin_pos]. Qed.

Lemma int2_zeros k s : int2 (repeat false k ++ s) = int2 s.
Proof. induction k as [|k IH]; [reflexivity|exact IH]. Qed.

(** [int(format(n, '08b'), 2) == n], whatever the size of [n]. *)
Lemma int2_format_08b n : int2 (format_08b n) = n.
Proof. unfold format_08b. now rewrite int2_zeros, int2_format_b. Qed.

Lemma bin_pos_bounds p :
  (2 ^ N.of_nat (length (bin_pos p)) <= 2 * Npos p
   /\ Npos p < 2 ^ N.of_nat (length (bin_pos p)))%N.
Proof.
  induction p as [p IH|p IH|]; simpl bin_pos.
  - rewrite length_app, Nat.add_1_r, Nat2N.inj_succ, N.pow_succ_r'. lia.
  - rewrite length_app, Nat.add_1_r, Nat2N.inj_succ, N.pow_succ_r'. lia.
  - simpl. lia.
Qed.

Lemma length_format_b_pos n : 0 < length (format_b n).
Proof.
  destruct n as [|p]; simpl; [lia|].
  destruct p; simpl; rewrite ?length_app; simpl; lia.
Qed.

(** The minimal representation has at most 8 digits exactly for the
    code points that fit one byte. *)
Lemma length_format_b_byte n :
  length (format_b n) <= 8 <-> (n <= 255)%N.
Proof.
  destruct n as [|p]; simpl; [split; intros; lia|].
  destruct (bin_pos_bounds p) as [Hlo Hhi].
  set (k := length (bin_pos p)) in *. split; intros H.
  - assert (2 ^ N.of_nat k <= 2 ^ 8)%N by (apply N.pow_le_mono_r; lia).
    change (2 ^ 8)%N with 256%N in *. lia.
  - destruct (le_gt_dec k 8) as [L|L]; [exact L|exfalso].
    assert (2 ^ 9 <= 2 ^ N.of_nat k)%N by (apply N.pow_le_mono_r; lia).
    change (2 ^ 9)%N with 512%N in *. lia.
Qed.

Lemma length_format_08b n :
  length (format_08b n) = Nat.max 8 (length (format_b n)).
Proof. unfold format_08b. rewrite length_app, repeat_length. lia. Qed.

Lemma length_format_08b_byte n :
  (n <= 255)%N -> length (format_08b n) = 8.
Proof.
  intros H. apply length_format_b_byte in H. rewrite length_format_08b. lia.
Qed.

Lemma format_08b_wide n :
  (255 < n)%N -> format_08b n = format_b n /\ 8 < length (format_08b n).
Proof.
  intros H. assert (L : 8 < length (format_b n)).
  { destruct (le_gt_dec (length (format_b n)) 8) as [L|L]; [|exact L].
    apply length_format_b_byte in L. lia. }
  unfold format_08b. replace (8 - length (format_b n)) with 0 by lia.
  simpl. auto.
Qed.

Lemma length_format_08b_lower n : 8 <= length (format_08b n).
Proof. rewrite length_format_08b. lia. Qed.

Lemma length_format_08b_8 n :
  length (format_08b n) = 8 <-> (n <= 255)%N.
Proof.
  split; [|apply length_format_08b_byte].
  intros H. destruct (N.le_gt_cases n 255) as [L|L]; [exact L|].
  apply format_08b_wide in L. lia.
Qed.

(** The first digit of the minimal representation of a positive number
    is a one. *)
Lemma bin_pos_head p : exists r, bin_pos p = true :: r.
Proof.
  induction p as [p [r IH]|p [r IH]|]; simpl; rewrite ?IH; simpl; eauto.
Qed.

(** *** Lengths of [text_to_binary] *)

Lemma length_text_to_binary_lower t :
  8 * length t <= length (text_to_binary t).
Proof.
  induction t as [|c t IH]; simpl; [lia|].
  rewrite length_app. pose proof (length_format_08b_lower c). lia.
Qed.

Lemma length_text_to_binary_bytes t :
  Forall fits_byte t -> length (text_to_binary t) = 8 * length t.
Proof.
  induction 1 as [|c t Hc _ IH]; simpl; [reflexivity|].
  rewrite length_app, IH, (length_format_08b_byte _ Hc). lia.
Qed.

Lemma length_text_to_binary_wide t :
  ~ Forall fits_byte t -> 8 * length t < length (text_to_binary t).
Proof.
  induction t as [|c t IH]; intros H; [exfalso; apply H; constructor|].
  simpl. rewrite length_app.
  pose proof (length_format_08b_lower c).
  pose proof (length_text_to_binary_lower t).
  destruct (N.le_gt_cases c 255) as [L|L].
  - assert (~ Forall fits_byte t) by (intros F; apply H; constructor; auto).
    specialize (IH H2). lia.
  - apply format_08b_wide in L. lia.
Qed.

(** *** Groups of 8 bits *)

Lemma range_0 : Py.range 0 8 = [].
Proof. reflexivity. Qed.

Lemma range_add8 n :
  Py.range (8 + n) 8 = 0 :: map (fun i => 8 + i) (Py.range n 8).
Proof.
  unfold Py.range.
  replace (8 + n + 8 - 1) with (n + 8 - 1 + 1 * 8) by lia.
  rewrite Nat.div_add by lia. rewrite Nat.add_1_r.
  rewrite <- cons_seq, <- seq_shift. cbn [map]. rewrite !map_map.
  f_equal.
Qed.

Lemma range_small n : 0 < n <= 8 -> Py.range n 8 = [0].
Proof.
  intros H. unfold Py.range.
  replace ((n + 8 - 1) / 8) with 1; [reflexivity|].
  apply Nat.div_unique with (r := n - 1); lia.
Qed.

Lemma flat_map_map {A B C} (f : B -> list C) (g : A -> B) l :
  flat_map f (map g l) = flat_map (fun x => f (g x)) l.
Proof. induction l; simpl; congruence. Qed.

Lemma slice_app8 (x r : bits) i :
  length x = 8 -> Py.slice (x ++ r) (8 + i) (8 + i + 8) = Py.slice r i (i + 8).
Proof.
  intros H. unfold Py.slice. rewrite skipn_app, H.
  rewrite skipn_all2 by lia. simpl app.
  replace (8 + i + 8 - (8 + i)) with (i + 8 - i) by lia.
  simpl Nat.sub. now rewrite Nat.sub_0_r.
Qed.

Lemma slice_head8 (x r : bits) :
  length x = 8 -> Py.slice (x ++ r) 0 (0 + 8) = x.
Proof.
  intros H. unfold Py.slice. simpl skipn. change (0 + 8 - 0) with 8.
  rewrite <- H, firstn_app, Nat.sub_diag, firstn_all. simpl.
  apply app_nil_r.
Qed.

(** [binary_to_text] decodes the stream one group of 8 at a time. *)
Lemma binary_to_text_cons (x r : bits) :
  length x = 8 -> binary_to_text (x ++ r) = int2 x :: binary_to_text r.
Proof.
  intros H. unfold binary_to_text.
  rewrite length_app, H, range_add8. simpl flat_map.
  rewrite (slice_head8 _ _ H), H. simpl. f_equal.
  rewrite flat_map_map. apply flat_map_ext. intros i.
  cbv beta. rewrite <- (slice_app8 x r i H). reflexivity.
Qed.

(** A trailing group shorter than 8 bits is dropped. *)
Lemma binary_to_text_short (s : bits) :
  length s < 8 -> binary_to_text s = [].
Proof.
  intros H. unfold binary_to_text. destruct s as [|b s]; [reflexivity|].
  rewrite range_small by (simpl in *; lia). cbn [flat_map].
  unfold Py.slice. change (0 + 8 - 0) with 8. rewrite skipn_O.
  rewrite firstn_all2 by lia.
  destruct (Nat.eqb_spec (length (b :: s)) 8); [lia|reflexivity].
Qed.

Lemma text_to_binary_cons c t :
  text_to_binary (c :: t) = format_08b c ++ text_to_binary t.
Proof. reflexivity. Qed.

Lemma text_to_binary_app t u :
  text_to_binary (t ++ u) = text_to_binary t ++ text_to_binary u.
Proof. apply flat_map_app. Qed.

(** [bitsToText (textToBits t) = t] on one-byte code points. *)
Lemma binary_to_text_text_to_binary t :
  Forall fits_byte t -> binary_to_text (text_to_binary t) = t.
Proof.
  induction 1 as [|c t Hc _ IH]; [reflexivity|].
  rewrite text_to_binary_cons.
  rewrite binary_to_text_cons by now apply length_format_08b_byte.
  now rewrite int2_format_08b, IH.
Qed.

Lemma int2_bound s : (int2 s < 2 ^ N.of_nat (length s))%N.
Proof.
  induction s as [|b s IH] using rev_ind; [reflexivity|].
  rewrite int2_snoc, length_app, Nat.add_1_r, Nat2N.inj_succ, N.pow_succ_r'.
  set (m := (2 ^ N.of_nat (length s))%N) in *.
  destruct b; simpl N.b2n; lia.
Qed.

Lemma firstn_skipn_8 (s : bits) k :
  length s = 8 * S k ->
  s = firstn 8 s ++ skipn 8 s
  /\ length (firstn 8 s) = 8 /\ length (skipn 8 s) = 8 * k.
Proof.
  intros H. split; [symmetry; apply firstn_skipn|].
  rewrite length_firstn, length_skipn. lia.
Qed.

(** Every character [binary_to_text] produces fits one byte. *)
Lemma binary_to_text_bytes (s : bits) : Forall fits_byte (binary_to_text s).
Proof.
  unfold binary_to_text. apply Forall_flat_map, Forall_forall. intros i _.
  destruct (Nat.eqb_spec (length (Py.slice s i (i + 8))) 8) as [E|E];
    [|constructor].
  constructor; [|constructor]. unfold fits_byte.
  pose proof (int2_bound (Py.slice s i (i + 8))) as B. rewrite E in B.
  change (2 ^ N.of_nat 8)%N with 256%N in B. lia.
Qed.

Lemma format_08b_int2 (x : bits) : length x = 8 -> format_08b (int2 x) = x.
Proof.
  intros H.
  do 8 (destruct x as [|[] x]; [discriminate H|..]);
    (destruct x; [reflexivity|discriminate H]).
Qed.

(** On whole groups of 8 bits [text_to_binary] undoes [binary_to_text]. *)
Lemma text_to_binary_binary_to_text (s : bits) k :
  length s = 8 * k -> text_to_binary (binary_to_text s) = s.
Proof.
  revert s; induction k as [|k IH]; intros s H.
  - destruct s; [reflexivity|discriminate].
  - destruct (firstn_skipn_8 _ _ H) as (E & L1 & L2).
    rewrite E at 1. rewrite binary_to_text_cons by exact L1.
    rewrite text_to_binary_cons, (format_08b_int2 _ L1), (IH _ L2).
    apply firstn_skipn.
Qed.

End BitStreamFacts.

(** ** [text_to_binary] outside the one-byte range *)

Module WideCharacters.

Import BitStream BitStreamFacts.

Lemma Forall_fits_byte_dec t : {Forall fits_byte t} + {~ Forall fits_byte t}.
Proof.
  apply Forall_dec. intros c. unfold fits_byte.
  destruct (c <=? 255)%N eqn:E; [left|right].
  - now apply N.leb_le.
  - apply N.leb_gt in E. lia.
Qed.

(** C9.  [text_to_binary] emits exactly 8 bits per character if and only
    if every code point is at most 255.  A code point above 255 is
    emitted as its minimal binary representation (leading digit one,
    value the code point), which is longer than 8 bits; the output is
    then longer than [8 * len(text)], the bits of whatever follows such a
    character start later than at 8 times its index, and
    [binary_to_text (text_to_binary t) = t] holds exactly for the texts
    whose code points all fit one byte. *)
Theorem text_to_binary_eight_bits_iff_one_byte (t : text) :
  (length (text_to_binary t) = 8 * length t <-> Forall fits_byte t)
  /\ (forall c, (255 < c)%N ->
        format_08b c = format_b c
        /\ (exists r, format_b c = true :: r)
        /\ int2 (format_b c) = c
        /\ 8 < length (format_08b c))
  /\ (~ Forall fits_byte t -> 8 * length t < length (text_to_binary t))
  /\ (forall u v, t = u ++ v -> ~ Forall fits_byte u ->
        text_to_binary t = text_to_binary u ++ text_to_binary v
        /\ 8 * length u < length (text_to_binary u))
  /\ (binary_to_text (text_to_binary t) = t <-> Forall fits_byte t).
Proof.
  split; [|split; [|split; [|split]]].
  - split; [|apply length_text_to_binary_bytes].
    intros H. destruct (Forall_fits_byte_dec t) as [F|F]; [exact F|].
    apply length_text_to_binary_wide in F. lia.
  - intros c Hc. destruct (format_08b_wide c Hc) as [E L].
    repeat split; auto using int2_format_b.
    destruct c as [|p]; [lia|]. apply bin_pos_head.
  - apply length_text_to_binary_wide.
  - intros u v -> Hu. split; [apply text_to_binary_app|].
    now apply length_text_to_binary_wide.
  - split; [|apply binary_to_text_text_to_binary].
    intros H. rewrite <- H. apply binary_to_text_bytes.
Qed.

End WideCharacters.

(** ** The embedding loop *)

Module EmbedFacts.

Import BitStream Engine.

Lemma lsb_set_lsb c b : lsb (set_lsb c b) = b.
Proof.
  unfold lsb, set_lsb. rewrite Z.land_lor_distr_l, <- Z.land_assoc.
  change (Z.land 254 1) with 0%Z. rewrite Z.land_0_r, Z.lor_0_l.
  destruct b; reflexivity.
Qed.

Lemma shiftr_set_lsb c b :
  (0 <= c <= 255)%Z -> Z.shiftr (set_lsb c b) 1 = Z.shiftr c 1.
Proof.
  intros H. unfold set_lsb. rewrite Z.shiftr_lor, Z.shiftr_land.
  replace (Z.shiftr (Z.b2z b) 1) with 0%Z by (destruct b; reflexivity).
  rewrite Z.lor_0_r. change (Z.shiftr 254 1) with (Z.ones 7).
  rewrite Z.land_ones by lia. rewrite Z.shiftr_div_pow2 by lia.
  change (2 ^ 1)%Z with 2%Z. change (2 ^ 7)%Z with 128%Z.
  apply Z.mod_small. split; [apply Z.div_pos; lia|].
  apply Z.div_lt_upper_bound; lia.
Qed.

Lemma set_lsb_range c b : (0 <= c <= 255)%Z -> (0 <= set_lsb c b <= 255)%Z.
Proof.
  intros H.
  assert (E : set_lsb c b = (2 * Z.shiftr c 1 + Z.b2z b)%Z).
  { rewrite <- (shiftr_set_lsb c b H).
    rewrite (Z.div_mod (set_lsb c b) 2) at 1 by lia.
    rewrite Z.shiftr_div_pow2 by lia. change (2 ^ 1)%Z with 2%Z.
    f_equal. unfold set_lsb. rewrite <- Z.bit0_mod, Z.lor_spec, Z.land_spec.
    change (Z.testbit 254 0) with false. rewrite andb_false_r. simpl.
    destruct b; reflexivity. }
  rewrite E. rewrite Z.shiftr_div_pow2 by lia. change (2 ^ 1)%Z with 2%Z.
  assert (0 <= c / 2 <= 127)%Z.
  { split; [apply Z.div_pos; lia|].
    apply Z.lt_succ_r. apply Z.div_lt_upper_bound; lia. }
  destruct b; simpl Z.b2z; lia.
Qed.

(** What one [put] does, by whether bits remain. *)
Lemma put_spec d c i :
  (i < length d /\ put d c i = (set_lsb c (nth i d false), S i))
  \/ (length d <= i /\ put d c i = (c, i)).
Proof.
  unfold put. destruct (Nat.ltb_spec i (length d)); [left|right]; auto.
Qed.

Lemma skipn_nth (d : bits) i :
  i < length d -> skipn i d = nth i d false :: skipn (S i) d.
Proof.
  revert i; induction d as [|b d IH]; intros [|i] H; simpl in *;
    try lia; [reflexivity|].
  apply IH. lia.
Qed.

Lemma overwrite_nil cs : overwrite [] cs = cs.
Proof. destruct cs; reflexivity. Qed.

Lemma overwrite_nil_r d : overwrite d [] = [].
Proof. destruct d; reflexivity. Qed.

(** One [put] is one step of [overwrite]. *)
Lemma put_overwrite d c i cs :
  overwrite (skipn i d) (c :: cs)
  = fst (put d c i) :: overwrite (skipn (snd (put d c i)) d) cs.
Proof.
  destruct (put_spec d c i) as [[L ->]|[L ->]]; simpl fst; simpl snd.
  - now rewrite (skipn_nth d i L).
  - rewrite skipn_all2 by exact L. reflexivity.
Qed.

Lemma embed_rgb_overwrite d px : forall i,
  concat (map (fun '(r, g, b) => [r; g; b]) (embed_rgb d i px))
  = overwrite (skipn i d) (concat (map (fun '(r, g, b) => [r; g; b]) px)).
Proof.
  induction px as [|[[r g] b] px IH]; intros i.
  - simpl. now rewrite overwrite_nil_r.
  - cbn [map concat app embed_rgb].
    rewrite (put_overwrite d r i), (put_overwrite d g), (put_overwrite d b).
    destruct (put d r i) as [r' i1]. cbn [fst snd].
    destruct (put d g i1) as [g' i2]. cbn [fst snd].
    destruct (put d b i2) as [b' i3]. cbn [fst snd map concat app].
    now rewrite IH.
Qed.

Lemma embed_rgba_overwrite d px : forall i,
  concat (map (fun '(r, g, b, a) => [r; g; b; a]) (embed_rgba d i px))
  = overwrite (skipn i d)
      (concat (map (fun '(r, g, b, a) => [r; g; b; a]) px)).
Proof.
  induction px as [|[[[r g] b] a] px IH]; intros i.
  - simpl. now rewrite overwrite_nil_r.
  - cbn [map concat app embed_rgba].
    rewrite (put_overwrite d r i), (put_overwrite d g), (put_overwrite d b),
      (put_overwrite d a).
    destruct (put d r i) as [r' i1]. cbn [fst snd].
    destruct (put d g i1) as [g' i2]. cbn [fst snd].
    destruct (put d b i2) as [b' i3]. cbn [fst snd].
    destruct (put d a i3) as [a' i4]. cbn [fst snd map concat app].
    now rewrite IH.
Qed.

(** The loop of [embed_data_in_image] writes the bit stream into the
    channel sequence from its first element on. *)
Lemma channel_values_embed_pixels d img :
  channel_values (embed_pixels d img) = overwrite d (channel_values img).
Proof.
  unfold channel_values, pixel_rows, embed_pixels.
  destruct (getdata img) as [px|px]; cbn [getdata].
  - apply (embed_rgb_overwrite d px 0).
  - apply (embed_rgba_overwrite d px 0).
Qed.

Lemma length_overwrite d cs : length (overwrite d cs) = length cs.
Proof.
  revert cs; induction d as [|b d IH]; intros [|c cs]; simpl; auto.
Qed.

Lemma nth_error_overwrite d : forall cs k,
  nth_error (overwrite d cs) k
  = option_map (fun c => if k <? length d then set_lsb c (nth k d false) else c)
               (nth_error cs k).
Proof.
  induction d as [|b d IH]; intros cs k.
  - rewrite overwrite_nil. destruct (nth_error cs k); [|reflexivity].
    now destruct k.
  - destruct cs as [|c cs]; [now destruct k|].
    destruct k as [|k]; [reflexivity|]. simpl. rewrite IH.
    reflexivity.
Qed.

Lemma map_lsb_overwrite d : forall cs,
  length d <= length cs ->
  map lsb (overwrite d cs) = d ++ skipn (length d) (map lsb cs).
Proof.
  induction d as [|b d IH]; intros [|c cs] H; simpl in *; try lia; auto.
  rewrite lsb_set_lsb, IH by lia. reflexivity.
Qed.

Lemma scan_channel_values img : scan img = map lsb (channel_values img).
Proof.
  unfold scan, channel_values, pixel_rows.
  destruct (getdata img) as [px|px];
    induction px as [|p px IH]; simpl; auto.
  - destruct p as [[r g] b]. simpl. now rewrite IH.
  - destruct p as [[[r g] b] a]. simpl. now rewrite IH.
Qed.

Lemma length_channel_values img :
  length (channel_values img) = pixel_count img * channels img.
Proof.
  unfold channel_values, pixel_rows, pixel_count, channels.
  destruct (getdata img) as [px|px];
    induction px as [|p px IH]; simpl; auto.
  - destruct p as [[r g] b]. simpl. rewrite IH. lia.
  - destruct p as [[[r g] b] a]. simpl. rewrite IH. lia.
Qed.

Lemma length_scan img : length (scan img) = pixel_count img * channels img.
Proof. now rewrite scan_channel_values, length_map, length_channel_values. Qed.

(** Scanning what was embedded gives the bit stream back, followed by the
    least significant bits of the channels that were not written. *)
Lemma scan_embed_pixels d img :
  length d <= pixel_count img * channels img ->
  scan (embed_pixels d img) = d ++ skipn (length d) (scan img).
Proof.
  intros H. rewrite !scan_channel_values, channel_values_embed_pixels.
  apply map_lsb_overwrite. now rewrite length_channel_values.
Qed.

End EmbedFacts.

(** ** What the embedding leaves alone *)

Module FrameFacts.

Import BitStream Engine EmbedFacts.

Ltac split_puts d :=
  repeat match goal with
         | |- context [put d ?c ?j] =>
             destruct (put_spec d c j) as [[? ->]|[? ->]]
         end.

(** Pixels that come after the bit stream is exhausted are copied. *)
Lemma embed_rgb_unchanged d px : forall i p,
  length d <= i + 3 * p -> nth_error (embed_rgb d i px) p = nth_error px p.
Proof.
  induction px as [|[[r g] b] px IH]; intros i p H; [reflexivity|].
  cbn [embed_rgb]. split_puts d;
    (destruct p as [|p]; cbn [nth_error];
     [first [reflexivity|exfalso; lia]|apply IH; lia]).
Qed.

Lemma embed_rgba_unchanged d px : forall i p,
  length d <= i + 4 * p -> nth_error (embed_rgba d i px) p = nth_error px p.
Proof.
  induction px as [|[[[r g] b] a] px IH]; intros i p H; [reflexivity|].
  cbn [embed_rgba]. split_puts d;
    (destruct p as [|p]; cbn [nth_error];
     [first [reflexivity|exfalso; lia]|apply IH; lia]).
Qed.

Lemma pixel_rows_unchanged d img p :
  length d <= p * channels img ->
  nth_error (pixel_rows (embed_pixels d img)) p = nth_error (pixel_rows img) p.
Proof.
  unfold pixel_rows, embed_pixels, channels.
  destruct (getdata img) as [px|px]; cbn [getdata]; intros H;
    rewrite !nth_error_map.
  - rewrite embed_rgb_unchanged by lia. reflexivity.
  - rewrite embed_rgba_unchanged by lia. reflexivity.
Qed.

Lemma length_embed_rgb d px : forall i, length (embed_rgb d i px) = length px.
Proof.
  induction px as [|[[r g] b] px IH]; intros i; [reflexivity|].
  cbn [embed_rgb]. split_puts d; simpl; now rewrite IH.
Qed.

Lemma length_embed_rgba d px : forall i, length (embed_rgba d i px) = length px.
Proof.
  induction px as [|[[[r g] b] a] px IH]; intros i; [reflexivity|].
  cbn [embed_rgba]. split_puts d; simpl; now rewrite IH.
Qed.

(** The new image has the mode, the size and the pixel count of the cover. *)
Lemma embed_pixels_shape d img :
  size (embed_pixels d img) = size img
  /\ channels (embed_pixels d img) = channels img
  /\ pixel_count (embed_pixels d img) = pixel_count img.
Proof.
  unfold embed_pixels, channels, pixel_count.
  destruct (getdata img) as [px|px]; cbn [getdata size];
    auto using length_embed_rgb, length_embed_rgba.
Qed.

Lemma byte_range_spec c : byte_range c = true -> (0 <= c <= 255)%Z.
Proof. unfold byte_range. intros H. apply andb_prop in H as [A B]. lia. Qed.

Lemma valid_channel_values img :
  valid_image img = true ->
  Forall (fun c => (0 <= c <= 255)%Z) (channel_values img).
Proof.
  unfold valid_image, channel_values, pixel_rows.
  intros H. apply andb_prop in H as [_ H].
  destruct (getdata img) as [px|px];
    induction px as [|p px IH]; try constructor.
  - destruct p as [[r g] b]. cbn [forallb] in H.
    apply andb_prop in H as [Hp H]. apply andb_prop in Hp as [Hp Hb].
    apply andb_prop in Hp as [Hr Hg].
    cbn [map concat app].
    repeat (constructor; [now apply byte_range_spec|]). now apply IH.
  - destruct p as [[[r g] b] a]. cbn [forallb] in H.
    apply andb_prop in H as [Hp H]. apply andb_prop in Hp as [Hp Ha].
    apply andb_prop in Hp as [Hp Hb]. apply andb_prop in Hp as [Hr Hg].
    cbn [map concat app].
    repeat (constructor; [now apply byte_range_spec|]). now apply IH.
Qed.

(** The two outcomes of the capacity test. *)
Lemma embed_within_capacity img data ext password :
  length (protect password data ++ delimiter) <= pixel_count img * channels img ->
  embed_data_in_image img data ext password
  = (true, Some (save (channels img)
                   (embed_pixels (protect password data ++ delimiter) img) ext)).
Proof.
  intros H. unfold embed_data_in_image.
  destruct (Nat.ltb_spec (pixel_count img * channels img)
              (length (protect password data ++ delimiter))); [lia|reflexivity].
Qed.

Lemma embed_over_capacity img data ext password :
  pixel_count img * channels img < length (protect password data ++ delimiter) ->
  embed_data_in_image img data ext password = (false, None).
Proof.
  intros H. unfold embed_data_in_image.
  destruct (Nat.ltb_spec (pixel_count img * channels img)
              (length (protect password data ++ delimiter))); [reflexivity|lia].
Qed.

(** C5.  For a cover image and a bit stream within capacity, the image
    [embed_data_in_image] builds and hands to [save] has the mode, size and
    pixel count of the cover; bit [k] of the stream (password digest,
    payload, delimiter) is the least significant bit of channel [k] in the
    order R, G, B, then A when present, pixel after pixel; every channel
    keeps its upper 7 bits; the channels past the end of the stream are
    unchanged, and so is every pixel that starts at or after that point. *)
Theorem embed_changes_only_lsb img data ext password :
  valid_image img = true ->
  length (protect password data ++ delimiter) <= pixel_count img * channels img ->
  exists new_img,
    let d := protect password data ++ delimiter in
    embed_data_in_image img data ext password
    = (true, Some (save (channels img) new_img ext))
    /\ size new_img = size img
    /\ channels new_img = channels img
    /\ pixel_count new_img = pixel_count img
    /\ (forall k c, nth_error (channel_values img) k = Some c ->
          exists c', nth_error (channel_values new_img) k = Some c'
                     /\ Z.shiftr c' 1 = Z.shiftr c 1
                     /\ (k < length d -> lsb c' = nth k d false)
                     /\ (length d <= k -> c' = c))
    /\ (forall p, length d <= p * channels img ->
          nth_error (pixel_rows new_img) p = nth_error (pixel_rows img) p).
Proof.
  intros V H. exists (embed_pixels (protect password data ++ delimiter) img).
  cbv zeta. set (d := protect password data ++ delimiter) in *.
  split; [now apply embed_within_capacity|].
  destruct (embed_pixels_shape d img) as (S1 & S2 & S3).
  repeat (split; [assumption|]). split.
  - intros k c Hk. rewrite channel_values_embed_pixels, nth_error_overwrite, Hk.
    cbn [option_map].
    assert (R : (0 <= c <= 255)%Z).
    { pose proof (valid_channel_values img V) as F.
      rewrite Forall_forall in F. apply F. eapply nth_error_In; eauto. }
    destruct (Nat.ltb_spec k (length d)) as [L|L];
      eexists; (split; [reflexivity|]).
    + split; [now apply shiftr_set_lsb|]. split; [|lia].
      intros _. apply lsb_set_lsb.
    + split; [reflexivity|]. split; [lia|reflexivity].
  - intros p Hp. now apply pixel_rows_unchanged.
Qed.

End FrameFacts.

(** ** The password digest *)

Module DigestFacts.

Import BitStream BitStreamFacts Engine.

Lemma length_be_bytes w x : length (Sha256.be_bytes w x) = w.
Proof. unfold Sha256.be_bytes. now rewrite length_map, length_seq. Qed.

Lemma be_bytes_range w x :
  Forall (fun b => (b < 256)%N) (Sha256.be_bytes w x).
Proof.
  unfold Sha256.be_bytes. apply Forall_map, Forall_forall. intros i _.
  apply N.mod_lt. discriminate.
Qed.

Lemma length_digest msg : length (Sha256.digest msg) = 32.
Proof.
  unfold Sha256.digest. cbv zeta.
  set (s := Sha256.blocks _ _ _). cbn [flat_map].
  rewrite !length_app, !length_be_bytes. reflexivity.
Qed.

Lemma digest_range msg : Forall (fun b => (b < 256)%N) (Sha256.digest msg).
Proof.
  unfold Sha256.digest. apply Forall_flat_map, Forall_forall.
  intros x _. apply be_bytes_range.
Qed.

Lemma hex_digit_spec n :
  (n < 16)%N -> Sha256.is_hex_digit (Sha256.hex_digit n) = true.
Proof.
  intros H. unfold Sha256.is_hex_digit, Sha256.hex_digit.
  apply orb_true_iff.
  destruct (N.ltb_spec n 10); [left|right];
    apply andb_true_iff; split; apply N.leb_le; lia.
Qed.

Lemma length_hexdigest msg : length (Sha256.hexdigest msg) = 64.
Proof.
  assert (E : length (Sha256.hexdigest msg) = 2 * length (Sha256.digest msg)).
  { unfold Sha256.hexdigest.
    induction (Sha256.digest msg) as [|b l IH]; [reflexivity|].
    cbn [flat_map length app]. rewrite IH. lia. }
  rewrite E, length_digest. reflexivity.
Qed.

(** Every character of the digest is a lower-case hexadecimal digit. *)
Lemma hexdigest_hex msg :
  Forall (fun c => Sha256.is_hex_digit c = true) (Sha256.hexdigest msg).
Proof.
  unfold Sha256.hexdigest. apply Forall_flat_map.
  eapply Forall_impl; [|apply digest_range]. intros b Hb. cbv beta in *.
  repeat constructor; apply hex_digit_spec.
  - apply N.Div0.div_lt_upper_bound. lia.
  - apply N.mod_lt. discriminate.
Qed.

Lemma hex_digit_ascii c : Sha256.is_hex_digit c = true -> (c < 128)%N.
Proof.
  unfold Sha256.is_hex_digit. intros H.
  apply orb_true_iff in H as [H|H]; apply andb_true_iff in H as [_ H];
    apply N.leb_le in H; lia.
Qed.

Lemma password_hash_ascii password :
  Forall (fun c => (c < 128)%N) (password_hash password).
Proof.
  eapply Forall_impl; [|apply hexdigest_hex]. apply hex_digit_ascii.
Qed.

Lemma password_hash_bytes password : Forall fits_byte (password_hash password).
Proof.
  eapply Forall_impl; [|apply password_hash_ascii].
  unfold fits_byte. intros; lia.
Qed.

(** The digest takes 512 bits. *)
Lemma length_password_hash_binary password :
  length (text_to_binary (password_hash password)) = 512.
Proof.
  rewrite length_text_to_binary_bytes by apply password_hash_bytes.
  unfold password_hash. now rewrite length_hexdigest.
Qed.

(** *** Runs of ones in seven-bit text *)

Lemma length_format_b_ascii c : (c < 128)%N -> length (format_b c) <= 7.
Proof.
  destruct c as [|p]; simpl; [lia|]. intros H.
  destruct (bin_pos_bounds p) as [Hlo _].
  set (k := length (bin_pos p)) in *.
  destruct (le_gt_dec k 7) as [L|L]; [exact L|exfalso].
  assert (2 ^ 8 <= 2 ^ N.of_nat k)%N by (apply N.pow_le_mono_r; lia).
  change (2 ^ 8)%N with 256%N in *. lia.
Qed.

(** The 8-bit encoding of a character below 128 starts with a zero. *)
Lemma format_08b_ascii c :
  (c < 128)%N -> exists r, format_08b c = false :: r /\ length r = 7.
Proof.
  intros H. pose proof (length_format_b_ascii c H) as L.
  pose proof (length_format_08b_byte c ltac:(lia)) as L8.
  unfold format_08b in *.
  destruct (8 - length (format_b c)) as [|m] eqn:E; [lia|].
  simpl in *. eexists; split; [reflexivity|]. lia.
Qed.

Lemma nth_text_to_binary_msb t : forall m,
  Forall (fun c => (c < 128)%N) t -> m < length t ->
  nth (8 * m) (text_to_binary t) true = false.
Proof.
  induction t as [|c t IH]; intros m F Hm; [simpl in Hm; lia|].
  inversion F as [|? ? Hc Ft]; subst.
  destruct (format_08b_ascii c Hc) as (r & E & Lr).
  rewrite text_to_binary_cons, E. destruct m as [|m]; [reflexivity|].
  replace (8 * S m) with (S (7 + 8 * m)) by lia. cbn [nth app].
  rewrite app_nth2 by lia. rewrite Lr.
  replace (7 + 8 * m - 7) with (8 * m) by lia.
  apply IH; [assumption|simpl in Hm; lia].
Qed.

(** Any 8 consecutive bits of such a text contain a zero. *)
Lemma ascii_no_run_of_8 t i :
  Forall (fun c => (c < 128)%N) t -> i + 8 <= 8 * length t ->
  exists j, j < 8 /\ nth (i + j) (text_to_binary t) true = false.
Proof.
  intros F H. pose proof (Nat.div_mod_eq (i + 7) 8) as D.
  pose proof (Nat.mod_upper_bound (i + 7) 8 ltac:(lia)) as U.
  exists (8 * ((i + 7) / 8) - i). split; [lia|].
  replace (i + (8 * ((i + 7) / 8) - i)) with (8 * ((i + 7) / 8)) by lia.
  apply nth_text_to_binary_msb; [assumption|lia].
Qed.

Lemma nth_skipn_add (s : bits) i j d : nth j (skipn i s) d = nth (i + j) s d.
Proof.
  revert s; induction i as [|i IH]; intros s; [reflexivity|].
  destruct s as [|b s]; [now destruct j|]. apply IH.
Qed.

Lemma startswith_nth sub s j d :
  Py.startswith sub s = true -> j < length sub -> nth j s d = nth j sub d.
Proof.
  intros H L. rewrite (PyFacts.startswith_split _ _ H).
  now apply app_nth1.
Qed.

(** An occurrence of the delimiter begins with eight ones. *)
Lemma delimiter_ones s i j :
  Py.startswith delimiter (skipn i s) = true -> j < 8 ->
  nth (i + j) s true = true.
Proof.
  intros H L. rewrite <- nth_skipn_add.
  rewrite (startswith_nth _ _ j true H) by (simpl; lia).
  do 8 (destruct j as [|j]; [reflexivity|]). lia.
Qed.

(** The delimiter cannot begin 8 bits or more before the end of
    seven-bit text, whatever follows the text. *)
Lemma delimiter_after_ascii t rest i :
  Forall (fun c => (c < 128)%N) t ->
  Py.startswith delimiter (skipn i (text_to_binary t ++ rest)) = true ->
  8 * length t < i + 8.
Proof.
  intros F H. destruct (le_gt_dec (i + 8) (8 * length t)) as [L|L]; [|lia].
  exfalso. destruct (ascii_no_run_of_8 t i F L) as (j & Hj & Z).
  pose proof (delimiter_ones _ i j H Hj) as O.
  rewrite app_nth1 in O; [congruence|].
  rewrite length_text_to_binary_bytes; [lia|].
  eapply Forall_impl; [|exact F]. unfold fits_byte. intros; lia.
Qed.

(** C10.  For every password, the 64 characters of the SHA-256 hex digest
    are hexadecimal digits ['0'-'9'], ['a'-'f']; their encoding takes 512
    bits, each group of 8 starting with a zero, so that any 8 consecutive
    digest bits contain a zero (no run of more than 7 ones).  The delimiter
    pattern is not a substring of the digest bits, and whatever bits follow
    the digest, an occurrence of the delimiter reaches past the end of the
    digest: it never ends inside the digest prefix. *)
Theorem digest_bits_hold_no_delimiter (password : list N) :
  let h := text_to_binary (password_hash password) in
  length (password_hash password) = 64
  /\ Forall (fun c => Sha256.is_hex_digit c = true) (password_hash password)
  /\ length h = 512
  /\ (forall m, m < 64 -> nth (8 * m) h true = false)
  /\ (forall i, i + 8 <= 512 -> exists j, j < 8 /\ nth (i + j) h true = false)
  /\ Py.find delimiter h = None
  /\ (forall rest i,
        Py.startswith delimiter (skipn i (h ++ rest)) = true -> 512 < i + 16).
Proof.
  cbv zeta. pose proof (length_hexdigest password) as L64.
  pose proof (password_hash_ascii password) as A.
  fold (password_hash password) in L64.
  split; [exact L64|]. split; [apply hexdigest_hex|].
  split; [apply length_password_hash_binary|].
  split; [|split; [|split]].
  - intros m Hm. apply nth_text_to_binary_msb; [exact A|lia].
  - intros i Hi. apply ascii_no_run_of_8; [exact A|lia].
  - destruct (Py.find delimiter _) as [i|] eqn:F; [exfalso|reflexivity].
    apply PyFacts.find_Some in F as (Hi & _ & Hl).
    rewrite length_password_hash_binary in Hl. simpl in Hl.
    rewrite <- (app_nil_r (text_to_binary _)) in Hi.
    apply (delimiter_after_ascii _ _ _ A) in Hi. lia.
  - intros rest i Hi. apply (delimiter_after_ascii _ _ _ A) in Hi. lia.
Qed.

End DigestFacts.

(** ** Locating the delimiter *)

Module ExtractFacts.

Import BitStream BitStreamFacts Engine EmbedFacts FrameFacts DigestFacts.

Lemma length_delimiter : length delimiter = 16.
Proof. reflexivity. Qed.

(** The delimiter cannot start in the last 15 bits before an appended
    delimiter: its final zero would fall on one of the appended ones. *)
Lemma startswith_delimiter_short (s : bits) :
  0 < length s < 16 -> Py.startswith delimiter (s ++ delimiter) = false.
Proof.
  intros [H0 H16].
  do 15 (destruct s as [|[] s]; [first [reflexivity|simpl in H0; lia]|
                                 |reflexivity]).
  destruct s; [reflexivity|simpl in H16; lia].
Qed.

(** The appended delimiter is found, at the end of the data or earlier. *)
Lemma find_delimiter_app (d : bits) :
  exists i, Py.find delimiter (d ++ delimiter) = Some i /\ i <= length d.
Proof.
  assert (O : Py.startswith delimiter (skipn (length d) (d ++ delimiter)) = true).
  { rewrite skipn_app, skipn_all, Nat.sub_diag. reflexivity. }
  destruct (Py.find delimiter (d ++ delimiter)) as [i|] eqn:F.
  - exists i. split; [reflexivity|].
    apply PyFacts.find_Some in F as (_ & M & _).
    destruct (le_gt_dec i (length d)) as [L|L]; [exact L|].
    rewrite (M _ L) in O. discriminate.
  - rewrite (PyFacts.find_None _ _ F) in O. discriminate.
Qed.

(** When the pattern does not occur in the data, the first occurrence is
    the appended delimiter. *)
Lemma find_delimiter_clean (d : bits) :
  Py.find delimiter d = None ->
  Py.find delimiter (d ++ delimiter) = Some (length d).
Proof.
  intros F. apply PyFacts.find_first.
  - rewrite skipn_app, skipn_all, Nat.sub_diag. reflexivity.
  - intros j Hj. rewrite skipn_app. replace (j - length d) with 0 by lia.
    rewrite skipn_O.
    destruct (le_gt_dec 16 (length (skipn j d))) as [L|L].
    + rewrite PyFacts.startswith_app_long by exact L.
      now apply PyFacts.find_None.
    + apply startswith_delimiter_short. rewrite length_skipn in *. lia.
Qed.

(** An occurrence inside the data is found first. *)
Lemma find_delimiter_inside (d : bits) i :
  Py.find delimiter d = Some i ->
  Py.find delimiter (d ++ delimiter) = Some i /\ i + 16 <= length d.
Proof.
  intros F. split; [now apply PyFacts.find_app_Some|].
  apply PyFacts.find_Some in F as (_ & _ & L). exact L.
Qed.

(** *** Writing and reading back *)

Lemma open_save img new_img ext :
  keeps_channels img ext -> open (save (channels img) new_img ext) = new_img.
Proof.
  unfold keeps_channels, save, open.
  intros [H|H]; destruct ext; try reflexivity; try congruence;
    rewrite H; reflexivity.
Qed.

(** The bits a scan of the written image starts with. *)
Lemma scan_embedded img data ext password :
  keeps_channels img ext ->
  length (protect password data ++ delimiter) <= pixel_count img * channels img ->
  exists f tail,
    embed_data_in_image img data ext password = (true, Some f)
    /\ scan (open f) = (protect password data ++ delimiter) ++ tail.
Proof.
  intros K H. set (d := protect password data ++ delimiter) in *.
  exists (save (channels img) (embed_pixels d img) ext),
         (skipn (length d) (scan img)).
  split; [now apply embed_within_capacity|].
  rewrite open_save by exact K. now apply scan_embed_pixels.
Qed.

(** Extraction cuts the embedded stream at the first delimiter pattern of
    [data ++ delimiter] and hands that prefix to the password gate. *)
Lemma extract_embedded img data ext password f i pw :
  keeps_channels img ext ->
  embed_data_in_image img data ext password = (true, Some f) ->
  Py.find delimiter (protect password data ++ delimiter) = Some i ->
  extract_data_from_image (open f) pw
  = verify pw (firstn i (protect password data)).
Proof.
  intros K E F.
  assert (H : length (protect password data ++ delimiter)
              <= pixel_count img * channels img).
  { destruct (le_gt_dec (length (protect password data ++ delimiter))
                (pixel_count img * channels img)) as [L|L]; [exact L|].
    rewrite embed_over_capacity in E by exact L. discriminate. }
  destruct (scan_embedded img data ext password K H) as (f' & tail & E' & S).
  rewrite E in E'. injection E' as <-.
  unfold extract_data_from_image. rewrite S.
  rewrite (PyFacts.find_app_Some _ _ tail _ F).
  destruct (find_delimiter_app (protect password data)) as (i' & F' & L).
  rewrite F in F'. injection F' as <-.
  rewrite <- app_assoc, firstn_app.
  replace (i - length (protect password data)) with 0 by lia.
  simpl firstn at 2. now rewrite app_nil_r.
Qed.

End ExtractFacts.

(** ** The password gate and the round trip *)

Module GateFacts.

Import BitStream BitStreamFacts Engine EmbedFacts FrameFacts DigestFacts
       ExtractFacts.

Lemma length_protect password data :
  length (protect password data ++ delimiter) = required_bits data password.
Proof.
  unfold required_bits, protect. rewrite length_app, length_delimiter.
  destruct password as [|b pw]; [reflexivity|].
  now rewrite length_app, length_password_hash_binary.
Qed.

Lemma firstn_length_app {A} (a b : list A) : firstn (length a) (a ++ b) = a.
Proof.
  rewrite firstn_app, Nat.sub_diag, firstn_all. simpl. apply app_nil_r.
Qed.

Lemma skipn_length_app {A} (a b : list A) : skipn (length a) (a ++ b) = b.
Proof. now rewrite skipn_app, skipn_all, Nat.sub_diag. Qed.

(** With the password it was built for, the gate gives the payload bits. *)
Lemma verify_protect password data :
  verify password (protect password data) = Some data.
Proof.
  destruct password as [|b pw]; [reflexivity|].
  unfold verify, protect. set (h := password_hash (b :: pw)).
  rewrite length_app.
  destruct (Nat.ltb_spec (length (text_to_binary h) + length data)
              (length (text_to_binary h))) as [C|_]; [lia|].
  rewrite firstn_length_app, skipn_length_app.
  rewrite binary_to_text_text_to_binary by apply password_hash_bytes.
  destruct (list_eq_dec N.eq_dec h h) as [_|N]; [reflexivity|congruence].
Qed.

(** A stream that does not begin with the digest bits of the password is
    rejected. *)
Lemma verify_mismatch password x :
  password <> [] ->
  firstn 512 x <> text_to_binary (password_hash password) ->
  verify password x = None.
Proof.
  intros Hp Hx. destruct password as [|b pw]; [congruence|].
  unfold verify. set (h := password_hash (b :: pw)) in *.
  pose proof (length_password_hash_binary (b :: pw)) as L. fold h in L.
  rewrite L. destruct (Nat.ltb_spec (length x) 512) as [C|C]; [reflexivity|].
  destruct (list_eq_dec N.eq_dec (binary_to_text (firstn 512 x)) h)
    as [E|_]; [exfalso|reflexivity].
  apply Hx. rewrite <- E. symmetry.
  apply text_to_binary_binary_to_text with (k := 64).
  rewrite length_firstn. lia.
Qed.

Lemma text_to_binary_inj t u :
  Forall fits_byte t -> Forall fits_byte u ->
  text_to_binary t = text_to_binary u -> t = u.
Proof.
  intros Ft Fu E.
  rewrite <- (binary_to_text_text_to_binary t Ft).
  rewrite <- (binary_to_text_text_to_binary u Fu). now rewrite E.
Qed.

(** Round trip of the engine: when the written file keeps every channel,
    the stream fits, and the delimiter pattern does not occur in the
    digest-plus-payload bits, extraction with the same password returns
    the payload bits. *)
Theorem extract_embed_roundtrip img data ext password :
  keeps_channels img ext ->
  required_bits data password <= pixel_count img * channels img ->
  Py.find delimiter (protect password data) = None ->
  exists f,
    embed_data_in_image img data ext password = (true, Some f)
    /\ extract_data_from_image (open f) password = Some data.
Proof.
  intros K C F. rewrite <- length_protect in C.
  destruct (scan_embedded img data ext password K C) as (f & tail & E & _).
  exists f. split; [exact E|].
  rewrite (extract_embedded img data ext password f _ password K E
             (find_delimiter_clean _ F)).
  rewrite firstn_all. apply verify_protect.
Qed.

(** The same for a text whose characters fit one byte. *)
Corollary extract_embed_text img t ext password :
  Forall fits_byte t ->
  keeps_channels img ext ->
  required_bits (text_to_binary t) password <= pixel_count img * channels img ->
  Py.find delimiter (protect password (text_to_binary t)) = None ->
  exists f,
    embed_data_in_image img (text_to_binary t) ext password = (true, Some f)
    /\ option_map binary_to_text (extract_data_from_image (open f) password)
       = Some t.
Proof.
  intros Ft K C F.
  destruct (extract_embed_roundtrip img _ ext password K C F) as (f & E & X).
  exists f. split; [exact E|]. rewrite X. simpl.
  now rewrite binary_to_text_text_to_binary.
Qed.

End GateFacts.

(** ** Capacity, extraction and wrong passwords *)

Module EngineProperties.

Import BitStream BitStreamFacts Engine EmbedFacts FrameFacts DigestFacts
       ExtractFacts GateFacts Samples.

(** C1, evaluated where it fails.  The 6-pixel RGBA cover holds 24 bits,
    the text ["A"] needs 8 + 16, its bits do not contain the delimiter
    pattern, and no password is used: embedding succeeds.  With a [.bmp]
    output path the alpha band, which carries every fourth bit of the
    stream, is dropped before the file is written, and extraction from
    that file finds no delimiter. *)
Theorem roundtrip_lost_on_rgba_to_bmp :
  valid_image cover_rgba_6 = true
  /\ Forall fits_byte text_A
  /\ required_bits (text_to_binary text_A) [] <= pixel_count cover_rgba_6 * channels cover_rgba_6
  /\ Py.find delimiter (protect [] (text_to_binary text_A)) = None
  /\ exists f,
       embed_data_in_image cover_rgba_6 (text_to_binary text_A) ExtBmp [] = (true, Some f)
       /\ scan (open f)
          = [false; true; false; false; false; false; true; true; true;
             true; true; true; true; true; true; true; true; true]
       /\ extract_data_from_image (open f) [] = None.
Proof.
  split; [reflexivity|]. split; [repeat constructor; unfold fits_byte; lia|].
  split; [vm_compute; lia|]. split; [reflexivity|].
  eexists. split; [reflexivity|]. split; reflexivity.
Qed.

(** C2.  When the bits to embed (512 digest bits if a password is given,
    the payload, 16 delimiter bits) exceed [pixel count * channels],
    [embed_data_in_image] returns [False] and writes no file, whatever the
    output path: the result of the capacity test alone decides it, and no
    image is built from the cover. *)
Theorem over_capacity_writes_nothing img data ext password :
  pixel_count img * channels img < required_bits data password ->
  embed_data_in_image img data ext password = (false, None).
Proof.
  intros H. apply embed_over_capacity. now rewrite length_protect.
Qed.

Lemma over_capacity_writes_nothing_witness :
  pixel_count cover_rgba_6 * channels cover_rgba_6
  < required_bits (text_to_binary text_A) pw_abc123
  /\ embed_data_in_image cover_rgba_6 (text_to_binary text_A) ExtPng pw_abc123
     = (false, None).
Proof.
  assert (H : pixel_count cover_rgba_6 * channels cover_rgba_6
              < required_bits (text_to_binary text_A) pw_abc123)
    by (vm_compute; lia).
  split; [exact H|].
  exact (over_capacity_writes_nothing cover_rgba_6 (text_to_binary text_A)
           ExtPng pw_abc123 H).
Defined.

(** C6.  Embedding succeeds exactly when the required bits (512 digest bits
    if a password is given, the payload, 16 delimiter bits) are at most
    [pixel count * channels]; on failure nothing is written.  A 10 x 10 RGB
    image has a capacity of 300 bits: a stream requiring exactly 300 bits
    is embedded and written, one requiring 301 fails and writes nothing. *)
Theorem embed_succeeds_iff_fits img data ext password :
  (fst (embed_data_in_image img data ext password) = true
   <-> required_bits data password <= pixel_count img * channels img)
  /\ (required_bits data password <= pixel_count img * channels img ->
      exists f, embed_data_in_image img data ext password = (true, Some f))
  /\ (pixel_count img * channels img < required_bits data password ->
      embed_data_in_image img data ext password = (false, None))
  /\ (valid_image img = true -> size img = (10, 10) -> channels img = 3 ->
      pixel_count img * channels img = 300
      /\ (required_bits data password = 300 ->
          exists f, embed_data_in_image img data ext password = (true, Some f))
      /\ (required_bits data password = 301 ->
          embed_data_in_image img data ext password = (false, None))).
Proof.
  assert (Fit : required_bits data password <= pixel_count img * channels img ->
                exists f, embed_data_in_image img data ext password
                          = (true, Some f)).
  { intros H. eexists. apply embed_within_capacity. now rewrite length_protect. }
  assert (Over : pixel_count img * channels img < required_bits data password ->
                 embed_data_in_image img data ext password = (false, None)).
  { intros H. apply embed_over_capacity. now rewrite length_protect. }
  split; [|split; [exact Fit|split; [exact Over|]]].
  - split; intros H.
    + destruct (le_gt_dec (required_bits data password)
                  (pixel_count img * channels img)) as [L|L]; [exact L|].
      rewrite (Over L) in H. discriminate.
    + destruct (Fit H) as [f ->]. reflexivity.
  - intros V S C.
    assert (P : pixel_count img * channels img = 300).
    { unfold valid_image in V. apply andb_prop in V as [V _].
      apply Nat.eqb_eq in V. rewrite S in V. simpl in V. rewrite V, C.
      reflexivity. }
    split; [exact P|]. split; intros R; [apply Fit|apply Over]; lia.
Qed.

(** The boundary on a concrete 10 x 10 RGB cover: 284 payload bits need
    300 bits and are embedded, 285 need 301 and are refused. *)
Example capacity_boundary_10x10 :
  required_bits (repeat false 284) [] = 300
  /\ fst (embed_data_in_image cover_rgb_10x10 (repeat false 284) ExtPng []) = true
  /\ required_bits (repeat false 285) [] = 301
  /\ embed_data_in_image cover_rgb_10x10 (repeat false 285) ExtPng []
     = (false, None).
Proof. repeat split; reflexivity. Qed.

(** C3, refuted.  A text embedded under the password ["abc123"] and
    extracted with the empty password is not reported as not found: the
    gate is skipped and the digest bits followed by the payload bits are
    returned. *)
Lemma empty_password_returns_digest_prefixed_payload :
  pw_abc123 <> []
  /\ exists f,
       embed_data_in_image cover_rgb_179 (text_to_binary text_A) ExtPng pw_abc123
       = (true, Some f)
       /\ extract_data_from_image (open f) []
          = Some (text_to_binary (password_hash pw_abc123)
                  ++ text_to_binary text_A).
Proof.
  split; [discriminate|].
  exists (save 3 (embed_pixels
                    (protect pw_abc123 (text_to_binary text_A) ++ delimiter)
                    cover_rgb_179) ExtPng).
  split.
  - apply embed_within_capacity. rewrite length_protect.
    apply Nat.leb_le. vm_compute. reflexivity.
  - vm_compute. reflexivity.
Qed.

(** C3, amended.  For an image written with every channel kept: extraction
    with a non-empty password [pw2] yields the not-found result whenever
    the embedded stream does not begin with the 512 digest bits of [pw2],
    in particular when it was embedded under a non-empty password whose
    SHA-256 hex digest differs from that of [pw2], or without a password
    and with a payload that does not begin with those digest bits.
    Extraction with the empty password makes no check: it returns the
    embedded bits up to the first delimiter pattern, digest prefix
    included. *)
Theorem wrong_password_not_found img data ext pw1 pw2 f :
  keeps_channels img ext ->
  embed_data_in_image img data ext pw1 = (true, Some f) ->
  (pw2 <> [] ->
   (pw1 <> [] /\ password_hash pw1 <> password_hash pw2)
   \/ (pw1 = [] /\ firstn 512 data <> text_to_binary (password_hash pw2)) ->
   extract_data_from_image (open f) pw2 = None)
  /\ (exists i,
        Py.find delimiter (protect pw1 data ++ delimiter) = Some i
        /\ i <= length (protect pw1 data)
        /\ extract_data_from_image (open f) []
           = Some (firstn i (protect pw1 data))).
Proof.
  intros K E.
  destruct (find_delimiter_app (protect pw1 data)) as (i & F & L).
  split.
  - intros P2 M. rewrite (extract_embedded img data ext pw1 f i pw2 K E F).
    destruct (le_gt_dec 512 i) as [Hi|Hi].
    + apply verify_mismatch; [exact P2|].
      rewrite firstn_firstn, Nat.min_l by exact Hi.
      destruct M as [[P1 H]|[-> H]]; [|exact H].
      destruct pw1 as [|b pw1]; [congruence|]. unfold protect.
      rewrite <- (length_password_hash_binary (b :: pw1)) at 1.
      rewrite firstn_length_app. intros Eq. apply H.
      apply text_to_binary_inj; auto using password_hash_bytes.
    + destruct pw2 as [|b pw2]; [congruence|]. unfold verify.
      rewrite length_password_hash_binary, length_firstn.
      destruct (Nat.ltb_spec (Nat.min i (length (protect pw1 data))) 512);
        [reflexivity|lia].
  - exists i. split; [exact F|]. split; [exact L|].
    now rewrite (extract_embedded img data ext pw1 f i [] K E F).
Qed.

Lemma wrong_password_not_found_witness :
  exists f,
    embed_data_in_image cover_rgb_179 (text_to_binary text_A) ExtPng pw_abc123
    = (true, Some f)
    /\ extract_data_from_image (open f) pw_secret = None.
Proof.
  assert (K : keeps_channels cover_rgb_179 ExtPng) by (right; discriminate).
  assert (C : length (protect pw_abc123 (text_to_binary text_A) ++ delimiter)
              <= pixel_count cover_rgb_179 * channels cover_rgb_179).
  { rewrite length_protect. apply Nat.leb_le. vm_compute. reflexivity. }
  pose proof (embed_within_capacity cover_rgb_179 (text_to_binary text_A)
                ExtPng pw_abc123 C) as E.
  eexists. split; [exact E|].
  refine (proj1 (wrong_password_not_found cover_rgb_179 (text_to_binary text_A)
                   ExtPng pw_abc123 pw_secret _ K E) _ _).
  - discriminate.
  - left. split; [discriminate|]. vm_compute. discriminate.
Defined.

(** C4.  Extraction reads the least significant bit of every channel of
    every pixel, in the order R, G, B, then A, of the whole image, and then
    locates the first occurrence of the 16-bit delimiter pattern in those
    bits: wherever the pattern occurs in the scanned bits, the search
    returns the lowest index at which it occurs, and the bits before that
    index are the extracted data, returned as they are without a password
    and handed to the password gate with one.  If the pattern occurs
    nowhere, the search fails and the result is the failure result,
    whatever the password.  Hence a delimiter pattern inside the embedded
    payload cuts the extracted data at that earlier point. *)
Theorem extraction_cuts_at_first_delimiter img :
  scan img = map lsb (channel_values img)
  /\ length (scan img) = pixel_count img * channels img
  /\ match Py.find delimiter (scan img) with
     | None => forall password, extract_data_from_image img password = None
     | Some i =>
         Py.startswith delimiter (skipn i (scan img)) = true
         /\ (forall j, j < i ->
               Py.startswith delimiter (skipn j (scan img)) = false)
         /\ extract_data_from_image img [] = Some (firstn i (scan img))
         /\ (forall password,
               extract_data_from_image img password
               = verify password (firstn i (scan img)))
     end
  /\ (forall data ext f i,
        keeps_channels img ext ->
        embed_data_in_image img data ext [] = (true, Some f) ->
        Py.find delimiter data = Some i ->
        i + 16 <= length data
        /\ extract_data_from_image (open f) [] = Some (firstn i data))
  /\ (forall i,
        firstn 16 (skipn i (scan img)) = delimiter ->
        (forall j, j < i -> firstn 16 (skipn j (scan img)) <> delimiter) ->
        Py.find delimiter (scan img) = Some i
        /\ extract_data_from_image img [] = Some (firstn i (scan img))
        /\ (forall password,
              extract_data_from_image img password
              = verify password (firstn i (scan img))))
  /\ (forall j,
        firstn 16 (skipn j (scan img)) = delimiter ->
        exists i,
          i <= j
          /\ Py.find delimiter (scan img) = Some i
          /\ firstn 16 (skipn i (scan img)) = delimiter
          /\ extract_data_from_image img [] = Some (firstn i (scan img)))
  /\ ((forall j, firstn 16 (skipn j (scan img)) <> delimiter) ->
      Py.find delimiter (scan img) = None
      /\ (forall password, extract_data_from_image img password = None))
  /\ (forall data ext f i,
        keeps_channels img ext ->
        embed_data_in_image img data ext [] = (true, Some f) ->
        firstn 16 (skipn i data) = delimiter ->
        (forall j, j < i -> firstn 16 (skipn j data) <> delimiter) ->
        i + 16 <= length data
        /\ extract_data_from_image (open f) [] = Some (firstn i data)).
Proof.
  assert (Occ : forall (s : bits) i,
            firstn 16 (skipn i s) = delimiter
            <-> Py.startswith delimiter (skipn i s) = true).
  { intros s i. symmetry. apply (PyFacts.startswith_firstn delimiter). }
  assert (NoOcc : forall (s : bits) i,
            firstn 16 (skipn i s) <> delimiter
            <-> Py.startswith delimiter (skipn i s) = false).
  { intros s i. symmetry. apply (PyFacts.startswith_false_firstn delimiter). }
  assert (First : forall (s : bits) i,
            firstn 16 (skipn i s) = delimiter ->
            (forall j, j < i -> firstn 16 (skipn j s) <> delimiter) ->
            Py.find delimiter s = Some i).
  { intros s i O M. apply PyFacts.find_first; [now apply Occ|].
    intros j Hj. apply NoOcc. now apply M. }
  split; [apply scan_channel_values|]. split; [apply length_scan|].
  split; [|split; [|split; [|split; [|split]]]].
  - unfold extract_data_from_image.
    destruct (Py.find delimiter (scan img)) as [i|] eqn:F; [|reflexivity].
    apply PyFacts.find_Some in F as (O & M & _). repeat split; auto.
  - intros data ext f i K E F.
    destruct (find_delimiter_inside data i F) as [F' L].
    split; [exact L|].
    now rewrite (extract_embedded img data ext [] f i [] K E F').
  - intros i O M. pose proof (First _ i O M) as F.
    unfold extract_data_from_image. rewrite F. repeat split; reflexivity.
  - intros j O. apply Occ in O.
    destruct (PyFacts.find_exists _ _ _ O) as (i & F & L).
    exists i. split; [exact L|]. split; [exact F|].
    pose proof F as F'. apply PyFacts.find_Some in F' as (Oi & _).
    split; [now apply Occ|].
    unfold extract_data_from_image. now rewrite F.
  - intros A.
    assert (F : Py.find delimiter (scan img) = None).
    { apply PyFacts.find_absent. intros j. apply NoOcc, A. }
    split; [exact F|]. intros password.
    unfold extract_data_from_image. now rewrite F.
  - intros data ext f i K E O M. pose proof (First _ i O M) as F.
    destruct (find_delimiter_inside data i F) as [F' L].
    split; [exact L|].
    now rewrite (extract_embedded img data ext [] f i [] K E F').
Qed.

(** A payload with the pattern inside: the text ["\xff\xfeA"] comes back
    empty. *)
Example delimiter_collision_truncates :
  exists f,
    embed_data_in_image cover_rgb_179 (text_to_binary [255; 254; 65]%N) ExtPng []
    = (true, Some f)
    /\ extract_data_from_image (open f) [] = Some [].
Proof.
  exists (save 3 (embed_pixels
                    (protect [] (text_to_binary [255; 254; 65]%N) ++ delimiter)
                    cover_rgb_179) ExtPng).
  split; vm_compute; reflexivity.
Qed.

End EngineProperties.

(** ** The file frame *)

Module FrameProperties.

Import BitStream BitStreamFacts Engine EmbedFacts FrameFacts GateFacts Samples.

Lemma In_range n i : In i (Py.range n 8) -> i < n.
Proof.
  unfold Py.range. rewrite in_map_iff. intros (k & <- & Hk).
  apply in_seq in Hk. pose proof (Nat.div_mod_eq (n + 8 - 1) 8) as D.
  pose proof (Nat.mod_upper_bound (n + 8 - 1) 8 ltac:(lia)). lia.
Qed.

Lemma length_range n : length (Py.range n 8) = (n + 7) / 8.
Proof.
  unfold Py.range. rewrite length_map, length_seq.
  f_equal. lia.
Qed.

Lemma length_slice (b : bits) i j :
  length (Py.slice b i j) = Nat.min (j - i) (length b - i).
Proof. unfold Py.slice. now rewrite length_firstn, length_skipn. Qed.

Lemma bytes_of_groups_nonempty gs :
  Forall (fun g => g <> []) gs ->
  GUI.bytes_of_groups gs = Some (map int2 gs).
Proof.
  induction 1 as [|g gs Hg _ IH]; [reflexivity|].
  destruct g as [|x g]; [congruence|]. cbn [GUI.bytes_of_groups map].
  now rewrite IH.
Qed.

(** No group is empty when the range stays inside the bits, so that
    [bytes(...)] cannot raise. *)
Lemma bytes_of_bits_total (b : bits) n :
  n <= length b ->
  GUI.bytes_of_bits b n
  = Some (map (fun i => int2 (Py.slice b i (i + 8))) (Py.range n 8)).
Proof.
  intros H. unfold GUI.bytes_of_bits.
  rewrite bytes_of_groups_nonempty, map_map; [reflexivity|].
  apply Forall_map, Forall_forall. intros i Hi. apply In_range in Hi.
  intros E. apply (f_equal (@length bool)) in E.
  rewrite length_slice in E. simpl in E. lia.
Qed.

Lemma length_bytes_of_bits (b : bits) n file_data :
  GUI.bytes_of_bits b n = Some file_data -> n <= length b ->
  length file_data = (n + 7) / 8.
Proof.
  intros E H. rewrite bytes_of_bits_total in E by exact H.
  injection E as <-. now rewrite length_map, length_range.
Qed.

(** With 64 bits or more the header always parses. *)
Lemma parse_header_total (b : bits) :
  64 <= length b -> exists fl fs, GUI.parse_header b = Some (fl, fs).
Proof.
  intros H. unfold GUI.parse_header.
  rewrite bytes_of_bits_total by (rewrite length_firstn; lia).
  unfold GUI.unpack_II. rewrite length_map. simpl length.
  cbn [Nat.eqb]. eauto.
Qed.

(** [extract_file_data] on at least 64 bits never ends in the error box:
    the name and the content are cut from whatever bits are there. *)
Lemma extract_file_data_total (b : bits) fl fs :
  GUI.parse_header b = Some (fl, fs) ->
  let filename_end := 64 + N.to_nat fl * 8 in
  let file_data_binary := Py.slice b filename_end (filename_end + N.to_nat fs * 8) in
  exists file_data,
    GUI.extract_file_data b
    = GUI.FileExtracted (binary_to_text (Py.slice b 64 filename_end)) fs file_data
    /\ GUI.bytes_of_bits file_data_binary (length file_data_binary) = Some file_data
    /\ length file_data
       = (Nat.min (N.to_nat fs * 8) (length b - filename_end) + 7) / 8.
Proof.
  intros P. cbv zeta. unfold GUI.extract_file_data. rewrite P.
  set (fe := 64 + N.to_nat fl * 8).
  set (fdb := Py.slice b fe (fe + N.to_nat fs * 8)).
  rewrite (bytes_of_bits_total fdb (length fdb) (le_n _)).
  eexists. split; [reflexivity|]. split; [reflexivity|].
  rewrite length_map, length_range. unfold fdb. rewrite length_slice.
  f_equal. lia.
Qed.

(** C7, refuted.  A header declaring a 1-character file name and 5 content
    bytes, followed by the 8 bits of ["a"] and by 3 more bits: the declared
    content length (40 bits) exceeds the 3 bits that remain, and the bits
    are returned as the file ["a"] with the one-byte content [5], not as a
    framing error.  A header declaring a file name of 1000 characters is
    not an error either: the bits are shown as text. *)
Lemma overlong_frame_is_not_rejected :
  GUI.extract_data
    (Some (bytes_to_binary [1; 0; 0; 0; 5; 0; 0; 0]%N
           ++ text_to_binary [97%N] ++ [true; false; true]))
  = GUI.FileExtracted [97%N] 5 [5%N]
  /\ GUI.extract_data (Some (bytes_to_binary [232; 3; 0; 0; 1; 0; 0; 0]%N))
     = GUI.TextExtracted [232; 3; 0; 0; 1; 0; 0; 0]%N.
Proof. split; vm_compute; reflexivity. Qed.

(** C7, amended.  Parsing a file frame never signals a framing error on
    the declared lengths.  With fewer than 64 extracted bits, or with a
    header whose file name length is not strictly between 0 and 1000 or
    whose content length is 0, the frame parser is not entered and the bits
    are decoded as text.  Otherwise the result is a file: its name is
    decoded from the bits present in the declared name range, its content
    from the bits present in the declared content range, both cut short
    without notice when the declared lengths exceed the bits that remain
    (a trailing group of fewer than 8 content bits still gives one byte),
    and the size displayed is the declared one. *)
Theorem frame_parsing_does_not_check_lengths (binary_data : bits) :
  (length binary_data < 64 ->
   GUI.extract_data (Some binary_data)
   = GUI.TextExtracted (binary_to_text binary_data))
  /\ (64 <= length binary_data ->
      exists fl fs,
        GUI.parse_header binary_data = Some (fl, fs)
        /\ if ((0 <? fl) && (fl <? 1000) && (0 <? fs))%N
           then
             let filename_end := 64 + N.to_nat fl * 8 in
             exists file_data,
               GUI.extract_data (Some binary_data)
               = GUI.FileExtracted
                   (binary_to_text (Py.slice binary_data 64 filename_end))
                   fs file_data
               /\ length file_data
                  = (Nat.min (N.to_nat fs * 8)
                       (length binary_data - filename_end) + 7) / 8
           else
             GUI.extract_data (Some binary_data)
             = GUI.TextExtracted (binary_to_text binary_data)).
Proof.
  split; intros H; unfold GUI.extract_data.
  - destruct (Nat.leb_spec 64 (length binary_data)); [lia|reflexivity].
  - destruct (parse_header_total binary_data H) as (fl & fs & P).
    exists fl, fs. split; [exact P|].
    destruct (Nat.leb_spec 64 (length binary_data)); [|lia]. rewrite P.
    destruct ((0 <? fl) && (fl <? 1000) && (0 <? fs))%N; [|reflexivity].
    destruct (extract_file_data_total binary_data fl fs P) as (d & E & _ & L).
    exists d. split; [exact E|exact L].
Qed.

(** *** Building the frame *)

Lemma u32_le_bytes n : Forall fits_byte (u32_le n).
Proof.
  unfold u32_le, fits_byte.
  repeat constructor;
    match goal with
    | |- (?x mod 256 <= 255)%N =>
        pose proof (N.mod_lt x 256 ltac:(discriminate)); lia
    end.
Qed.

(** [u32_le] is the little-endian encoding on 4 bytes. *)
Lemma u32_of_le_u32_le n : (n < 2 ^ 32)%N -> GUI.u32_of_le (u32_le n) = n.
Proof.
  intros H. change (2 ^ 32)%N with 4294967296%N in H.
  unfold GUI.u32_of_le, u32_le. cbn [fold_right].
  zify. Z.to_euclidean_division_equations. lia.
Qed.

Lemma length_bytes_to_binary data :
  Forall fits_byte data -> length (bytes_to_binary data) = 8 * length data.
Proof. apply length_text_to_binary_bytes. Qed.

Lemma bytes_to_binary_app a b :
  bytes_to_binary (a ++ b) = bytes_to_binary a ++ bytes_to_binary b.
Proof. apply flat_map_app. Qed.

(** C8.  For a file name whose characters fit one byte and a content of
    bytes, both shorter than 2^32, [file_to_binary] builds exactly the
    8-byte header (file name length, then content length, each as a 32-bit
    little-endian number), the file name bytes and the content bytes, every
    byte as 8 bits, most significant first: decoding the frame 8 bits at a
    time gives these bytes back.  The frame takes
    [64 + 8 * len(filename) + 8 * len(content)] bits, and embedding it
    without a password succeeds exactly when 16 more bits than that fit
    the capacity; for the content ["app"] under the name ["a.txt"] this is
    64 + 40 + 24 + 16 = 144 bits. *)
Theorem file_frame_layout (filename : text) (file_data : list N) :
  Forall fits_byte filename ->
  Forall fits_byte file_data ->
  (N.of_nat (length filename) < 2 ^ 32)%N ->
  (N.of_nat (length file_data) < 2 ^ 32)%N ->
  let fl := N.of_nat (length filename) in
  let fs := N.of_nat (length file_data) in
  exists frame,
    file_to_binary filename file_data = Some (frame, filename, fs)
    /\ frame = bytes_to_binary (u32_le fl ++ u32_le fs ++ filename ++ file_data)
    /\ GUI.u32_of_le (u32_le fl) = fl
    /\ GUI.u32_of_le (u32_le fs) = fs
    /\ binary_to_text frame = u32_le fl ++ u32_le fs ++ filename ++ file_data
    /\ length frame = 64 + 8 * length filename + 8 * length file_data
    /\ (forall img ext,
          fst (embed_data_in_image img frame ext []) = true
          <-> 64 + 8 * length filename + 8 * length file_data + 16
              <= pixel_count img * channels img)
    /\ (filename = name_a_txt -> file_data = content_app ->
        required_bits frame [] = 144).
Proof.
  intros Fn Fd Ln Ld fl fs.
  assert (All : Forall fits_byte (u32_le fl ++ u32_le fs ++ filename ++ file_data)).
  { repeat (apply Forall_app; split); auto using u32_le_bytes. }
  assert (Len : length (bytes_to_binary
                          (u32_le fl ++ u32_le fs ++ filename ++ file_data))
                = 64 + 8 * length filename + 8 * length file_data).
  { rewrite length_bytes_to_binary by exact All.
    rewrite !length_app. simpl length. lia. }
  exists (bytes_to_binary (u32_le fl ++ u32_le fs ++ filename ++ file_data)).
  split; [|split; [reflexivity|split; [|split; [|split; [|split; [|split]]]]]].
  - unfold file_to_binary, pack_II. fold fl fs.
    destruct (N.ltb_spec fl (2 ^ 32)); [|lia].
    destruct (N.ltb_spec fs (2 ^ 32)); [|lia]. cbn [andb].
    rewrite !bytes_to_binary_app, <- !app_assoc. reflexivity.
  - now apply u32_of_le_u32_le.
  - now apply u32_of_le_u32_le.
  - now apply binary_to_text_text_to_binary.
  - exact Len.
  - intros img ext. unfold embed_data_in_image.
    rewrite length_protect. unfold required_bits. rewrite Len.
    destruct (Nat.ltb_spec (pixel_count img * channels img)
                (0 + (64 + 8 * length filename + 8 * length file_data) + 16));
      simpl fst; split; intros; try lia; try reflexivity; discriminate.
  - intros -> ->. unfold required_bits. rewrite Len. reflexivity.
Qed.

Lemma file_frame_layout_witness :
  exists frame,
    file_to_binary name_a_txt content_app = Some (frame, name_a_txt, 3%N)
    /\ length frame = 128
    /\ required_bits frame [] = 144.
Proof.
  destruct (file_frame_layout name_a_txt content_app) as (frame & E & _ & _ & _ & _ & L & _ & R).
  - repeat constructor; unfold fits_byte; lia.
  - repeat constructor; unfold fits_byte; lia.
  - reflexivity.
  - reflexivity.
  - exists frame. split; [exact E|]. split; [exact L|]. now apply R.
Defined.

End FrameProperties.

(** ** The frame property on a sample cover *)

Module FrameWitness.

Import BitStream Engine FrameFacts Samples.

Lemma embed_changes_only_lsb_witness :
  exists new_img,
    embed_data_in_image cover_rgb_10x10 (text_to_binary text_A) ExtPng []
    = (true, Some (save 3 new_img ExtPng))
    /\ size new_img = (10, 10)
    /\ nth_error (pixel_rows new_img) 8 = Some [200; 100; 50]%Z.
Proof.
  assert (V : valid_image cover_rgb_10x10 = true) by reflexivity.
  assert (C : length (protect [] (text_to_binary text_A) ++ delimiter)
              <= pixel_count cover_rgb_10x10 * channels cover_rgb_10x10)
    by (apply Nat.leb_le; reflexivity).
  destruct (embed_changes_only_lsb cover_rgb_10x10 (text_to_binary text_A)
              ExtPng [] V C) as (new_img & E & S & _ & _ & _ & P).
  exists new_img. split; [exact E|]. split; [exact S|].
  rewrite (P 8) by (apply Nat.leb_le; reflexivity). reflexivity.
Defined.

End FrameWitness.

(** ** Decoding bit streams: text, bytes and file frames *)

Module DecodeFacts.

Import BitStream BitStreamFacts Engine FrameProperties.

(** A stream of at least 8 bits is its first group followed by the rest. *)
Lemma split_group (b : bits) :
  8 <= length b ->
  exists x r, b = x ++ r /\ length x = 8 /\ length r = length b - 8.
Proof.
  intros H. exists (firstn 8 b), (skipn 8 b).
  rewrite firstn_skipn, length_firstn, length_skipn. repeat split; lia.
Qed.

Lemma binary_to_text_chunks : forall k (b : bits),
  8 * k <= length b < 8 * k + 8 ->
  length (binary_to_text b) = k
  /\ binary_to_text b = binary_to_text (firstn (8 * k) b).
Proof.
  induction k as [|k IH]; intros b H.
  - rewrite binary_to_text_short by lia. split; reflexivity.
  - destruct (split_group b ltac:(lia)) as (x & r & -> & Lx & Lr).
    rewrite length_app in H.
    destruct (IH r ltac:(lia)) as [IH1 IH2].
    rewrite binary_to_text_cons by exact Lx. split.
    + simpl. now rewrite IH1.
    + rewrite firstn_app, Lx, firstn_all2 by lia.
      replace (8 * S k - 8) with (8 * k) by lia.
      rewrite binary_to_text_cons by exact Lx. now rewrite <- IH2.
Qed.

(** X1.  [binary_to_text] gives one character for each whole group of 8
    bits and ignores the bits of a trailing partial group; every character
    it gives fits one byte. *)
Theorem binary_to_text_whole_groups (b : bits) :
  length (binary_to_text b) = length b / 8
  /\ binary_to_text b = binary_to_text (firstn (8 * (length b / 8)) b)
  /\ Forall fits_byte (binary_to_text b).
Proof.
  pose proof (Nat.div_mod_eq (length b) 8) as D.
  pose proof (Nat.mod_upper_bound (length b) 8 ltac:(lia)) as U.
  destruct (binary_to_text_chunks (length b / 8) b ltac:(lia)) as [H1 H2].
  split; [exact H1|]. split; [exact H2|]. apply binary_to_text_bytes.
Qed.

(** On whole groups, [bytes(int(b[i:i+8], 2) ...)] and [binary_to_text]
    read the same values. *)
Lemma map_int2_slices : forall k (b : bits),
  length b = 8 * k ->
  map (fun i => int2 (Py.slice b i (i + 8))) (Py.range (length b) 8)
  = binary_to_text b.
Proof.
  induction k as [|k IH]; intros b H.
  - destruct b; [reflexivity|discriminate].
  - destruct (split_group b ltac:(lia)) as (x & r & -> & Lx & Lr).
    rewrite length_app in H.
    rewrite binary_to_text_cons by exact Lx.
    rewrite <- (IH r) by lia.
    rewrite length_app, Lx, range_add8. cbn [map].
    rewrite (slice_head8 _ _ Lx), map_map. f_equal.
    apply map_ext. intros i. now rewrite (slice_app8 _ _ _ Lx).
Qed.

Lemma bytes_of_bits_whole (b : bits) k :
  length b = 8 * k -> GUI.bytes_of_bits b (length b) = Some (binary_to_text b).
Proof.
  intros H. rewrite bytes_of_bits_total by reflexivity.
  now rewrite (map_int2_slices k).
Qed.

(** The bytes written 8 bits each are read back. *)
Lemma bytes_of_bits_text l :
  Forall fits_byte l ->
  GUI.bytes_of_bits (text_to_binary l) (length (text_to_binary l)) = Some l.
Proof.
  intros F. rewrite (bytes_of_bits_whole _ (length l)).
  - now rewrite binary_to_text_text_to_binary.
  - now apply length_text_to_binary_bytes.
Qed.

Lemma slice_after {A} (a rest : list A) n :
  Py.slice (a ++ rest) (length a) (length a + n) = firstn n rest.
Proof.
  unfold Py.slice. rewrite skipn_app, skipn_all, Nat.sub_diag. simpl.
  f_equal. lia.
Qed.

(** The header of a stream that starts with 8 bytes. *)
Lemma parse_header_text h rest :
  length h = 8 -> Forall fits_byte h ->
  GUI.parse_header (text_to_binary h ++ rest)
  = Some (GUI.u32_of_le (firstn 4 h), GUI.u32_of_le (skipn 4 h)).
Proof.
  intros L F. pose proof (length_text_to_binary_bytes h F) as L64.
  rewrite L in L64. unfold GUI.parse_header.
  change 64 with (8 * 8) at 1. rewrite <- L64 at 1.
  rewrite GateFacts.firstn_length_app.
  change 64 with (8 * 8). rewrite <- L64.
  rewrite bytes_of_bits_text by exact F.
  unfold GUI.unpack_II. rewrite L. reflexivity.
Qed.

Lemma length_u32_le n : length (u32_le n) = 4.
Proof. reflexivity. Qed.

(** The common core of the frame properties: a stream holding the header,
    the whole file name and as much of the content as [avail] is decoded
    as the file [filename] with the content [avail] and the declared
    size. *)
Lemma decode_frame (filename : text) (avail : list N) (fs : N) :
  Forall fits_byte filename -> Forall fits_byte avail ->
  (0 < N.of_nat (length filename) < 1000)%N ->
  (0 < fs < 2 ^ 32)%N ->
  length avail <= N.to_nat fs ->
  GUI.extract_data
    (Some (bytes_to_binary
             (u32_le (N.of_nat (length filename)) ++ u32_le fs
              ++ filename ++ avail)))
  = GUI.FileExtracted filename fs avail.
Proof.
  intros Fn Fa Hl Hs Ha. set (fl := N.of_nat (length filename)) in *.
  set (h := u32_le fl ++ u32_le fs).
  assert (Fh : Forall fits_byte h)
    by (apply Forall_app; split; apply u32_le_bytes).
  assert (Lh : length h = 8) by reflexivity.
  set (H := text_to_binary h). set (FN := text_to_binary filename).
  set (AV := text_to_binary avail).
  assert (LH : length H = 64)
    by (unfold H; rewrite length_text_to_binary_bytes by exact Fh; now rewrite Lh).
  assert (LFN : length FN = N.to_nat fl * 8).
  { unfold FN, fl. rewrite length_text_to_binary_bytes by exact Fn.
    rewrite Nat2N.id. lia. }
  assert (LAV : length AV = 8 * length avail)
    by (unfold AV; now rewrite length_text_to_binary_bytes).
  assert (EF : bytes_to_binary (u32_le fl ++ u32_le fs ++ filename ++ avail)
               = H ++ FN ++ AV).
  { unfold bytes_to_binary, H, FN, AV, text_to_binary, h.
    now rewrite !flat_map_app, <- app_assoc. }
  rewrite EF.
  assert (P : GUI.parse_header (H ++ FN ++ AV) = Some (fl, fs)).
  { unfold H. rewrite (parse_header_text h _ Lh Fh).
    unfold h. change (firstn 4 (u32_le fl ++ u32_le fs)) with (u32_le fl).
    change (skipn 4 (u32_le fl ++ u32_le fs)) with (u32_le fs).
    rewrite !u32_of_le_u32_le; [reflexivity|lia|].
    change (2 ^ 32)%N with 4294967296%N. lia. }
  assert (C : ((0 <? fl) && (fl <? 1000) && (0 <? fs))%N = true).
  { rewrite !andb_true_iff, !N.ltb_lt. lia. }
  unfold GUI.extract_data.
  destruct (Nat.leb_spec 64 (length (H ++ FN ++ AV))) as [_|B];
    [|rewrite length_app in B; lia].
  rewrite P, C. unfold GUI.extract_file_data. rewrite P.
  assert (S1 : Py.slice (H ++ FN ++ AV) 64 (64 + N.to_nat fl * 8) = FN).
  { rewrite <- LH, <- LFN, slice_after. apply GateFacts.firstn_length_app. }
  assert (S2 : Py.slice (H ++ FN ++ AV) (64 + N.to_nat fl * 8)
                 (64 + N.to_nat fl * 8 + N.to_nat fs * 8) = AV).
  { rewrite app_assoc.
    replace (64 + N.to_nat fl * 8) with (length (H ++ FN))
      by (rewrite length_app; lia).
    rewrite slice_after. apply firstn_all2. lia. }
  rewrite S1, S2. unfold AV at 1 2. rewrite bytes_of_bits_text by exact Fa.
  unfold FN. now rewrite binary_to_text_text_to_binary.
Qed.

(** What [file_to_binary] returns when both lengths fit 32 bits. *)
Lemma file_to_binary_ok filename file_data :
  (N.of_nat (length filename) < 2 ^ 32)%N ->
  (N.of_nat (length file_data) < 2 ^ 32)%N ->
  file_to_binary filename file_data
  = Some (bytes_to_binary
            (u32_le (N.of_nat (length filename))
             ++ u32_le (N.of_nat (length file_data)) ++ filename ++ file_data),
          filename, N.of_nat (length file_data)).
Proof.
  intros Ln Ld. unfold file_to_binary, pack_II.
  destruct (N.ltb_spec (N.of_nat (length filename)) (2 ^ 32)); [|lia].
  destruct (N.ltb_spec (N.of_nat (length file_data)) (2 ^ 32)); [|lia].
  cbn [andb]. rewrite !bytes_to_binary_app, <- !app_assoc. reflexivity.
Qed.

(** What a successful [file_to_binary] returned. *)
Lemma file_to_binary_Some filename file_data frame name size :
  file_to_binary filename file_data = Some (frame, name, size) ->
  frame = bytes_to_binary
            (u32_le (N.of_nat (length filename))
             ++ u32_le (N.of_nat (length file_data)) ++ filename ++ file_data)
  /\ name = filename
  /\ size = N.of_nat (length file_data)
  /\ (N.of_nat (length filename) < 2 ^ 32)%N
  /\ (N.of_nat (length file_data) < 2 ^ 32)%N.
Proof.
  intros E.
  assert (B : (N.of_nat (length filename) < 2 ^ 32)%N
              /\ (N.of_nat (length file_data) < 2 ^ 32)%N).
  { unfold file_to_binary, pack_II in E.
    destruct (N.ltb_spec (N.of_nat (length filename)) (2 ^ 32));
      [|discriminate E].
    destruct (N.ltb_spec (N.of_nat (length file_data)) (2 ^ 32));
      [|discriminate E].
    split; assumption. }
  destruct B as [Bn Bd]. rewrite (file_to_binary_ok _ _ Bn Bd) in E.
  injection E as <- <- <-. repeat split; assumption.
Qed.

(** X3.  A file frame built by [file_to_binary] is decoded by
    [extract_data] into the same file: name, declared size and content,
    provided the name has between 1 and 999 characters, each fitting one
    byte, and the content is not empty (and shorter than 2^32 bytes). *)
Theorem file_frame_roundtrip (filename : text) (file_data : list N) :
  Forall fits_byte filename -> Forall fits_byte file_data ->
  0 < length filename < 1000 ->
  (0 < N.of_nat (length file_data) < 2 ^ 32)%N ->
  exists frame,
    file_to_binary filename file_data
    = Some (frame, filename, N.of_nat (length file_data))
    /\ GUI.extract_data (Some frame)
       = GUI.FileExtracted filename (N.of_nat (length file_data)) file_data.
Proof.
  intros Fn Fd Ln Ld.
  eexists. split.
  - apply file_to_binary_ok; [change (2 ^ 32)%N with 4294967296%N|]; lia.
  - apply decode_frame; auto; lia.
Qed.

Lemma file_frame_roundtrip_witness :
  exists frame,
    file_to_binary Samples.name_a_txt Samples.content_app
    = Some (frame, Samples.name_a_txt, 3%N)
    /\ GUI.extract_data (Some frame)
       = GUI.FileExtracted Samples.name_a_txt 3 Samples.content_app.
Proof.
  apply (file_frame_roundtrip Samples.name_a_txt Samples.content_app).
  - repeat constructor; unfold fits_byte; lia.
  - repeat constructor; unfold fits_byte; lia.
  - simpl. lia.
  - simpl. lia.
Defined.

(** The header read from the bits of a text of 8 characters or more. *)
Lemma parse_header_of_text (t : text) :
  Forall fits_byte t -> 8 <= length t ->
  GUI.parse_header (text_to_binary t)
  = Some (GUI.u32_of_le (firstn 4 t), GUI.u32_of_le (firstn 4 (skipn 4 t))).
Proof.
  intros F H8.
  assert (E : t = firstn 8 t ++ skipn 8 t) by (symmetry; apply firstn_skipn).
  assert (L8 : length (firstn 8 t) = 8) by (rewrite length_firstn; lia).
  assert (F8 : Forall fits_byte (firstn 8 t)).
  { rewrite Forall_forall in *. intros x Hx. apply F.
    rewrite E. apply in_or_app. now left. }
  rewrite E at 1. rewrite text_to_binary_app.
  rewrite (parse_header_text _ _ L8 F8).
  rewrite firstn_firstn. change (Nat.min 4 8) with 4.
  rewrite skipn_firstn_comm. reflexivity.
Qed.

(** What [extract_data] does with the bits of a text of one-byte
    characters: the first 8 characters are read as a frame header. *)
Lemma extract_data_text (t : text) :
  Forall fits_byte t ->
  GUI.extract_data (Some (text_to_binary t))
  = if (8 <=? length t)
       && ((0 <? GUI.u32_of_le (firstn 4 t))
           && (GUI.u32_of_le (firstn 4 t) <? 1000)
           && (0 <? GUI.u32_of_le (firstn 4 (skipn 4 t))))%N
    then GUI.extract_file_data (text_to_binary t)
    else GUI.TextExtracted t.
Proof.
  intros F. pose proof (length_text_to_binary_bytes t F) as L.
  unfold GUI.extract_data. rewrite L.
  destruct (Nat.leb_spec 8 (length t)) as [H8|H8].
  - destruct (Nat.leb_spec 64 (8 * length t)) as [_|B]; [|lia].
    pose proof (parse_header_of_text t F H8) as P.
    rewrite P. cbn [andb].
    destruct ((0 <? _) && _ && _)%N; [reflexivity|].
    now rewrite binary_to_text_text_to_binary.
  - destruct (Nat.leb_spec 64 (8 * length t)) as [B|_]; [lia|].
    cbn [andb]. now rewrite binary_to_text_text_to_binary.
Qed.

(** X4.  A frame that [file_to_binary] builds for an empty content, for a
    file name of 1000 characters or more, or for an empty file name does
    not come back as a file: [extract_data] shows it as text, the 8 header
    bytes first. *)
Theorem unframed_file_shown_as_text (filename : text) (file_data : list N) :
  Forall fits_byte filename -> Forall fits_byte file_data ->
  (N.of_nat (length filename) < 2 ^ 32)%N ->
  (N.of_nat (length file_data) < 2 ^ 32)%N ->
  file_data = [] \/ 1000 <= length filename \/ filename = [] ->
  exists frame,
    file_to_binary filename file_data
    = Some (frame, filename, N.of_nat (length file_data))
    /\ GUI.extract_data (Some frame)
       = GUI.TextExtracted
           (u32_le (N.of_nat (length filename))
            ++ u32_le (N.of_nat (length file_data)) ++ filename ++ file_data).
Proof.
  intros Fn Fd Ln Ld Hc.
  eexists. split; [now apply file_to_binary_ok|].
  pose proof (u32_of_le_u32_le _ Ln) as U1.
  pose proof (u32_of_le_u32_le _ Ld) as U2.
  set (fl := N.of_nat (length filename)) in *.
  set (fs := N.of_nat (length file_data)) in *.
  assert (All : Forall fits_byte (u32_le fl ++ u32_le fs ++ filename ++ file_data)).
  { repeat (apply Forall_app; split); auto using u32_le_bytes. }
  change (bytes_to_binary ?x) with (text_to_binary x).
  rewrite (extract_data_text _ All).
  change (firstn 4 (u32_le fl ++ u32_le fs ++ filename ++ file_data))
    with (u32_le fl).
  change (firstn 4 (skipn 4 (u32_le fl ++ u32_le fs ++ filename ++ file_data)))
    with (u32_le fs).
  rewrite U1, U2.
  replace ((0 <? fl) && (fl <? 1000) && (0 <? fs))%N with false;
    [now rewrite andb_false_r|].
  symmetry. rewrite !andb_false_iff, !N.ltb_ge.
  destruct Hc as [ -> | [ H | -> ] ]; unfold fl, fs; simpl length; lia.
Qed.

Lemma unframed_file_shown_as_text_witness :
  exists frame,
    file_to_binary Samples.name_a_txt [] = Some (frame, Samples.name_a_txt, 0%N)
    /\ GUI.extract_data (Some frame)
       = GUI.TextExtracted ([5; 0; 0; 0; 0; 0; 0; 0]%N ++ Samples.name_a_txt).
Proof.
  destruct (unframed_file_shown_as_text Samples.name_a_txt [])
    as (frame & E & X).
  - repeat constructor; unfold fits_byte; lia.
  - constructor.
  - reflexivity.
  - reflexivity.
  - left. reflexivity.
  - exists frame. split; [exact E|exact X].
Defined.

(** X7.  A text of 8 characters or more whose first 4 characters, read as
    a little-endian number, lie strictly between 0 and 1000, and whose next
    4 characters read as a positive number, is not shown as text:
    [extract_data] takes these 8 characters for a frame header and returns
    a file with the declared size, its name decoded from the bits that
    follow. *)
Theorem text_misread_as_file (t : text) :
  Forall fits_byte t ->
  8 <= length t ->
  (0 < GUI.u32_of_le (firstn 4 t) < 1000)%N ->
  (0 < GUI.u32_of_le (firstn 4 (skipn 4 t)))%N ->
  exists file_data,
    GUI.extract_data (Some (text_to_binary t))
    = GUI.FileExtracted
        (binary_to_text
           (Py.slice (text_to_binary t) 64
              (64 + N.to_nat (GUI.u32_of_le (firstn 4 t)) * 8)))
        (GUI.u32_of_le (firstn 4 (skipn 4 t)))
        file_data.
Proof.
  intros F H8 Hl Hs. rewrite (extract_data_text t F).
  destruct (Nat.leb_spec 8 (length t)) as [_|B]; [|lia].
  replace ((0 <? GUI.u32_of_le (firstn 4 t))
           && (GUI.u32_of_le (firstn 4 t) <? 1000)
           && (0 <? GUI.u32_of_le (firstn 4 (skipn 4 t))))%N with true
    by (symmetry; rewrite !andb_true_iff, !N.ltb_lt; lia).
  cbn [andb].
  pose proof (parse_header_of_text t F H8) as P.
  destruct (extract_file_data_total _ _ _ P) as (d & E & _).
  exists d. exact E.
Qed.

Lemma text_misread_as_file_witness :
  exists file_data,
    GUI.extract_data (Some (text_to_binary Samples.text_like_header))
    = GUI.FileExtracted [65%N] 1 file_data.
Proof.
  destruct (text_misread_as_file Samples.text_like_header) as (d & E).
  - repeat constructor; unfold fits_byte; lia.
  - simpl. lia.
  - vm_compute. split; reflexivity.
  - vm_compute. reflexivity.
  - exists d. rewrite E. reflexivity.
Defined.

End DecodeFacts.

(** ** From the payload to the image and back *)

Module EndToEnd.

Import BitStream BitStreamFacts Engine EmbedFacts FrameFacts DigestFacts
       ExtractFacts GateFacts FrameProperties DecodeFacts Samples.

(** What the password gate returned, when it returned something. *)
Lemma verify_Some password e x :
  verify password e = Some x ->
  (password = [] /\ x = e)
  \/ (password <> [] /\ 512 <= length e /\ x = skipn 512 e).
Proof.
  destruct password as [|b pw]; [intros [= <-]; now left|].
  unfold verify. rewrite length_password_hash_binary.
  destruct (Nat.ltb_spec (length e) 512) as [L|L]; [discriminate|].
  destruct (list_eq_dec _ _ _); [|discriminate].
  intros [= <-]. right. repeat split; [discriminate|exact L].
Qed.

(** X2.  For an image written with every channel kept, extraction with
    the password used for embedding returns exactly the embedded payload
    bits if and only if the delimiter pattern does not occur in the
    digest-plus-payload bits. *)
Theorem roundtrip_iff_no_delimiter img data ext password f :
  keeps_channels img ext ->
  embed_data_in_image img data ext password = (true, Some f) ->
  (extract_data_from_image (open f) password = Some data
   <-> Py.find delimiter (protect password data) = None).
Proof.
  intros K E. split.
  - intros X.
    destruct (Py.find delimiter (protect password data)) as [i|] eqn:F;
      [exfalso|reflexivity].
    destruct (find_delimiter_inside _ _ F) as [F' L].
    rewrite (extract_embedded img data ext password f i password K E F') in X.
    apply verify_Some in X as [[-> Hx]|(Hp & H512 & Hx)].
    + cbn [protect] in *. apply (f_equal (@length bool)) in Hx.
      rewrite length_firstn in Hx. lia.
    + apply (f_equal (@length bool)) in Hx.
      rewrite length_skipn, length_firstn in Hx.
      rewrite length_firstn in H512.
      pose proof (length_protect password data) as P.
      rewrite length_app, length_delimiter in P. unfold required_bits in P.
      destruct password; [congruence|]. lia.
  - intros F.
    assert (C : required_bits data password <= pixel_count img * channels img).
    { rewrite <- length_protect.
      destruct (le_gt_dec (length (protect password data ++ delimiter))
                  (pixel_count img * channels img)) as [L|L]; [exact L|].
      rewrite (embed_over_capacity img data ext password L) in E.
      discriminate. }
    destruct (extract_embed_roundtrip img data ext password K C F)
      as (f' & E' & X).
    rewrite E in E'. injection E' as <-. exact X.
Qed.

Lemma roundtrip_iff_no_delimiter_witness :
  exists f,
    embed_data_in_image cover_rgb_179 (text_to_binary text_A) ExtPng pw_abc123
    = (true, Some f)
    /\ extract_data_from_image (open f) pw_abc123 = Some (text_to_binary text_A).
Proof.
  assert (C : length (protect pw_abc123 (text_to_binary text_A) ++ delimiter)
              <= pixel_count cover_rgb_179 * channels cover_rgb_179).
  { rewrite length_protect. apply Nat.leb_le. vm_compute. reflexivity. }
  pose proof (embed_within_capacity cover_rgb_179 (text_to_binary text_A)
                ExtPng pw_abc123 C) as E.
  eexists. split; [exact E|].
  apply (roundtrip_iff_no_delimiter cover_rgb_179 (text_to_binary text_A)
           ExtPng pw_abc123 _); [right; discriminate|exact E|].
  vm_compute. reflexivity.
Defined.

(** X5.  Hiding a file and extracting it gives the file back: when the
    frame of [file_to_binary] is embedded in a cover whose output keeps
    every channel, fits the capacity and does not contain the delimiter
    pattern (digest bits included), extraction with the same password
    followed by [extract_data] returns the file name, the size and the
    content, for a name of 1 to 999 one-byte characters and a non-empty
    content. *)
Theorem hidden_file_comes_back img filename file_data frame name size ext password :
  file_to_binary filename file_data = Some (frame, name, size) ->
  Forall fits_byte filename -> Forall fits_byte file_data ->
  0 < length filename < 1000 ->
  0 < length file_data ->
  keeps_channels img ext ->
  required_bits frame password <= pixel_count img * channels img ->
  Py.find delimiter (protect password frame) = None ->
  exists f,
    embed_data_in_image img frame ext password = (true, Some f)
    /\ GUI.extract_data (extract_data_from_image (open f) password)
       = GUI.FileExtracted filename (N.of_nat (length file_data)) file_data.
Proof.
  intros E Fn Fd Ln Ld K C D.
  destruct (file_to_binary_Some _ _ _ _ _ E) as (-> & _ & _ & Bn & Bd).
  destruct (extract_embed_roundtrip img _ ext password K C D) as (f & Ef & X).
  exists f. split; [exact Ef|]. rewrite X.
  apply decode_frame; auto; lia.
Qed.

Lemma hidden_file_comes_back_witness :
  exists frame f,
    file_to_binary name_a_txt content_app = Some (frame, name_a_txt, 3%N)
    /\ embed_data_in_image cover_rgba_400 frame ExtPng pw_secret = (true, Some f)
    /\ GUI.extract_data (extract_data_from_image (open f) pw_secret)
       = GUI.FileExtracted name_a_txt 3 content_app.
Proof.
  pose proof (file_to_binary_ok name_a_txt content_app eq_refl eq_refl) as E.
  destruct (hidden_file_comes_back cover_rgba_400 name_a_txt content_app
              _ _ _ ExtPng pw_secret E) as (f & Ef & X).
  - repeat constructor; unfold fits_byte; lia.
  - repeat constructor; unfold fits_byte; lia.
  - simpl. lia.
  - simpl. lia.
  - right. discriminate.
  - apply Nat.leb_le. vm_compute. reflexivity.
  - vm_compute. reflexivity.
  - eexists. exists f. split; [exact E|]. split; [exact Ef|exact X].
Defined.

Lemma u32_of_le_large (t : text) :
  4 <= length t ->
  nth 2 t 0%N <> 0%N \/ nth 3 t 0%N <> 0%N ->
  (1000 <= GUI.u32_of_le (firstn 4 t))%N.
Proof.
  intros L H.
  do 4 (destruct t as [|? t]; [simpl in L; lia|]).
  cbn [firstn GUI.u32_of_le fold_right nth] in *. lia.
Qed.

(** A text shorter than 8 characters, or with a third or fourth character
    other than NUL, is shown as it is. *)
Lemma text_shown_as_text (t : text) :
  Forall fits_byte t ->
  length t < 8 \/ nth 2 t 0%N <> 0%N \/ nth 3 t 0%N <> 0%N ->
  GUI.extract_data (Some (text_to_binary t)) = GUI.TextExtracted t.
Proof.
  intros F H. rewrite (extract_data_text t F).
  destruct (Nat.leb_spec 8 (length t)) as [L|L]; [|reflexivity].
  destruct H as [H|H]; [lia|].
  pose proof (u32_of_le_large t ltac:(lia) H) as B.
  apply N.ltb_ge in B. rewrite B, andb_false_r. reflexivity.
Qed.

(** X6.  Hiding a text and extracting it shows the text again: for a text
    of one-byte characters that is shorter than 8 characters or whose third
    or fourth character is not NUL (any text without NUL characters), in a
    cover whose output keeps every channel, when the bits fit and do not
    contain the delimiter pattern, extraction with the same password
    followed by [extract_data] puts exactly this text in the results
    pane. *)
Theorem hidden_text_comes_back img (t : text) ext password :
  Forall fits_byte t ->
  length t < 8 \/ nth 2 t 0%N <> 0%N \/ nth 3 t 0%N <> 0%N ->
  keeps_channels img ext ->
  required_bits (text_to_binary t) password <= pixel_count img * channels img ->
  Py.find delimiter (protect password (text_to_binary t)) = None ->
  exists f,
    embed_data_in_image img (text_to_binary t) ext password = (true, Some f)
    /\ GUI.extract_data (extract_data_from_image (open f) password)
       = GUI.TextExtracted t.
Proof.
  intros F H K C D.
  destruct (extract_embed_roundtrip img _ ext password K C D) as (f & E & X).
  exists f. split; [exact E|]. rewrite X. now apply text_shown_as_text.
Qed.

Lemma hidden_text_comes_back_witness :
  exists f,
    embed_data_in_image cover_rgb_10x10 (text_to_binary text_hi_there) ExtBmp []
    = (true, Some f)
    /\ GUI.extract_data (extract_data_from_image (open f) [])
       = GUI.TextExtracted text_hi_there.
Proof.
  apply (hidden_text_comes_back cover_rgb_10x10 text_hi_there ExtBmp []).
  - repeat constructor; unfold fits_byte; lia.
  - right. left. discriminate.
  - left. reflexivity.
  - apply Nat.leb_le. vm_compute. reflexivity.
  - vm_compute. reflexivity.
Defined.

Lemma protect_app password (x y : bits) :
  protect password (x ++ y) = protect password x ++ y.
Proof.
  unfold protect. destruct password; [reflexivity|apply app_assoc].
Qed.

(** The bits of the bytes [FF FE] are the delimiter pattern. *)
Lemma ff_fe_is_delimiter : bytes_to_binary [255; 254]%N = delimiter.
Proof. reflexivity. Qed.

(** X8.  A byte pair [FF FE] in the content of a hidden file ends the
    extraction there: when the delimiter pattern does not occur before it
    (digest bits, header, name and the content [a] before the pair), the
    file comes back under its name and with its declared size, but with
    the content [a] only; the pair and everything after it are lost
    without any error. *)
Theorem content_cut_at_ff_fe img filename (a b : list N) frame name size ext password :
  file_to_binary filename (a ++ 255%N :: 254%N :: b) = Some (frame, name, size) ->
  Forall fits_byte filename -> Forall fits_byte a -> Forall fits_byte b ->
  0 < length filename < 1000 ->
  keeps_channels img ext ->
  required_bits frame password <= pixel_count img * channels img ->
  Py.find delimiter
    (protect password
       (bytes_to_binary
          (u32_le (N.of_nat (length filename))
           ++ u32_le (N.of_nat (length (a ++ 255%N :: 254%N :: b)))
           ++ filename ++ a))) = None ->
  exists f,
    embed_data_in_image img frame ext password = (true, Some f)
    /\ GUI.extract_data (extract_data_from_image (open f) password)
       = GUI.FileExtracted filename
           (N.of_nat (length (a ++ 255%N :: 254%N :: b))) a.
Proof.
  intros E Fn Fa Fb Ln K C D.
  destruct (file_to_binary_Some _ _ _ _ _ E) as (-> & _ & _ & Bn & Bd).
  set (fl := N.of_nat (length filename)) in *.
  set (fs := N.of_nat (length (a ++ 255%N :: 254%N :: b))) in *.
  set (X := bytes_to_binary (u32_le fl ++ u32_le fs ++ filename ++ a)) in *.
  assert (EF : bytes_to_binary
                 (u32_le fl ++ u32_le fs ++ filename ++ a ++ 255%N :: 254%N :: b)
               = X ++ delimiter ++ bytes_to_binary b).
  { unfold X. rewrite <- ff_fe_is_delimiter, <- !bytes_to_binary_app.
    f_equal. rewrite <- !app_assoc. reflexivity. }
  rewrite EF in *. rewrite <- length_protect in C.
  destruct (scan_embedded img _ ext password K C) as (f & tail & Ef & _).
  exists f. split; [exact Ef|].
  assert (F : Py.find delimiter
                (protect password (X ++ delimiter ++ bytes_to_binary b)
                 ++ delimiter)
              = Some (length (protect password X))).
  { rewrite protect_app, app_assoc, <- app_assoc.
    apply PyFacts.find_app_Some. now apply find_delimiter_clean. }
  rewrite (extract_embedded img _ ext password f _ password K Ef F).
  rewrite protect_app, firstn_length_app, verify_protect.
  unfold X. apply decode_frame; auto.
  - lia.
  - split; [|exact Bd]. unfold fs. rewrite length_app. simpl length. lia.
  - unfold fs. rewrite Nat2N.id, length_app. lia.
Qed.

Lemma content_cut_at_ff_fe_witness :
  exists frame f,
    file_to_binary name_a_txt content_utf16 = Some (frame, name_a_txt, 6%N)
    /\ embed_data_in_image cover_rgba_400 frame ExtPng [] = (true, Some f)
    /\ GUI.extract_data (extract_data_from_image (open f) [])
       = GUI.FileExtracted name_a_txt 6 [].
Proof.
  pose proof (file_to_binary_ok name_a_txt content_utf16 eq_refl eq_refl) as E.
  destruct (content_cut_at_ff_fe cover_rgba_400 name_a_txt []
              [72; 0; 105; 0]%N _ _ _ ExtPng [] E) as (f & Ef & X).
  - repeat constructor; unfold fits_byte; lia.
  - constructor.
  - repeat constructor; unfold fits_byte; lia.
  - simpl. lia.
  - right. discriminate.
  - apply Nat.leb_le. vm_compute. reflexivity.
  - vm_compute. reflexivity.
  - eexists. exists f. split; [exact E|]. split; [exact Ef|exact X].
Defined.

End EndToEnd.

(** ** The written image and the capacity *)

Module ImageFacts.

Import BitStream BitStreamFacts Engine EmbedFacts FrameFacts DigestFacts
       ExtractFacts GateFacts EndToEnd Analysis Samples.

Lemma byte_range_true c : in_byte_range c -> byte_range c = true.
Proof.
  unfold in_byte_range, byte_range. intros H.
  apply andb_true_iff. split; apply Z.leb_le; lia.
Qed.

(** [valid_image], read on the flat sequence of channels. *)
Lemma valid_image_channels img :
  pixel_count img = fst (size img) * snd (size img) ->
  Forall in_byte_range (channel_values img) ->
  valid_image img = true.
Proof.
  unfold valid_image, channel_values, pixel_rows, pixel_count.
  intros C F. apply andb_true_iff. split; [now apply Nat.eqb_eq|]. clear C.
  destruct (getdata img) as [px|px];
    induction px as [|p px IH]; try reflexivity.
  - destruct p as [[r g] b]. cbn [map concat app] in F.
    inversion F as [|? ? Hr F1]; subst. inversion F1 as [|? ? Hg F2]; subst.
    inversion F2 as [|? ? Hb F3]; subst. cbn [forallb].
    rewrite !byte_range_true by assumption. now rewrite IH.
  - destruct p as [[[r g] b] a]. cbn [map concat app] in F.
    inversion F as [|? ? Hr F1]; subst. inversion F1 as [|? ? Hg F2]; subst.
    inversion F2 as [|? ? Hb F3]; subst. inversion F3 as [|? ? Ha F4]; subst.
    cbn [forallb]. rewrite !byte_range_true by assumption. now rewrite IH.
Qed.

Lemma valid_image_count img :
  valid_image img = true ->
  pixel_count img = fst (size img) * snd (size img).
Proof.
  unfold valid_image. intros H. apply andb_prop in H as [H _].
  now apply Nat.eqb_eq.
Qed.

Lemma Forall_overwrite d : forall cs,
  Forall in_byte_range cs -> Forall in_byte_range (overwrite d cs).
Proof.
  induction d as [|b d IH]; intros cs F; [now rewrite overwrite_nil|].
  destruct F as [|c cs Hc F]; [constructor|]. cbn [overwrite].
  constructor; [now apply set_lsb_range|now apply IH].
Qed.

(** The image built by the loop is a well-formed 8-bit image again. *)
Lemma embed_pixels_valid d img :
  valid_image img = true -> valid_image (embed_pixels d img) = true.
Proof.
  intros V. destruct (embed_pixels_shape d img) as (S & _ & P).
  apply valid_image_channels.
  - rewrite P, S. now apply valid_image_count.
  - rewrite channel_values_embed_pixels. apply Forall_overwrite.
    now apply valid_channel_values.
Qed.

Lemma convert_RGB_valid img :
  valid_image img = true -> valid_image (convert_RGB img) = true.
Proof.
  unfold valid_image, convert_RGB, pixel_count.
  destruct (getdata img) as [px|px] eqn:G; intros V.
  - unfold valid_image, pixel_count. now rewrite G.
  - cbn [getdata size]. apply andb_prop in V as [C V].
    apply andb_true_iff. split; [rewrite length_map; exact C|].
    clear C G. induction px as [|p px IH]; [reflexivity|].
    destruct p as [[[r g] b] a]. cbn [map forallb] in *.
    apply andb_prop in V as [Vp V]. apply andb_prop in Vp as [Vp _].
    now rewrite Vp, IH.
Qed.

Lemma set_lsb_value c b :
  in_byte_range c -> set_lsb c b = (2 * (c / 2) + Z.b2z b)%Z.
Proof.
  intros H. unfold in_byte_range in H.
  replace (c / 2)%Z with (Z.shiftr c 1)
    by (rewrite Z.shiftr_div_pow2 by lia; reflexivity).
  rewrite <- (shiftr_set_lsb c b H).
  rewrite (Z.div_mod (set_lsb c b) 2) at 1 by lia.
  rewrite Z.shiftr_div_pow2 by lia. change (2 ^ 1)%Z with 2%Z.
  f_equal. unfold set_lsb. rewrite <- Z.bit0_mod, Z.lor_spec, Z.land_spec.
  change (Z.testbit 254 0) with false. rewrite andb_false_r. simpl.
  destruct b; reflexivity.
Qed.

(** X9.  Whatever is embedded, the image that is written is a well-formed
    8-bit image of the cover's size and pixel count, also after the BMP
    conversion, and no channel of the image built by the loop differs from
    the cover's by more than 1. *)
Theorem written_image_is_valid img data ext password f :
  valid_image img = true ->
  embed_data_in_image img data ext password = (true, Some f) ->
  valid_image (open f) = true
  /\ size (open f) = size img
  /\ pixel_count (open f) = pixel_count img
  /\ (forall k c c',
        nth_error (channel_values img) k = Some c ->
        nth_error (channel_values
                     (embed_pixels (protect password data ++ delimiter) img)) k
        = Some c' ->
        (Z.abs (c' - c) <= 1)%Z).
Proof.
  intros V E. set (d := protect password data ++ delimiter) in *.
  assert (Ef : f = save (channels img) (embed_pixels d img) ext).
  { destruct (le_gt_dec (length d) (pixel_count img * channels img)) as [L|L].
    - rewrite (embed_within_capacity img data ext password L) in E.
      now injection E as <-.
    - rewrite (embed_over_capacity img data ext password L) in E.
      discriminate. }
  pose proof (embed_pixels_valid d img V) as Vn.
  destruct (embed_pixels_shape d img) as (S & Ch & P).
  assert (Shape : valid_image (open f) = true
                  /\ size (open f) = size img
                  /\ pixel_count (open f) = pixel_count img).
  { assert (Conv : valid_image (convert_RGB (embed_pixels d img)) = true
                   /\ size (convert_RGB (embed_pixels d img)) = size img
                   /\ pixel_count (convert_RGB (embed_pixels d img))
                      = pixel_count img).
    { split; [now apply convert_RGB_valid|].
      rewrite <- S, <- P. unfold convert_RGB, pixel_count.
      destruct (getdata (embed_pixels d img)) eqn:G; cbn [getdata size];
        rewrite ?length_map, ?G; split; reflexivity. }
    subst f. unfold save, open.
    destruct ext; try (destruct (channels img =? 4)); cbn [contents];
      first [exact Conv|repeat split; assumption]. }
  destruct Shape as (S1 & S2 & S3). repeat (split; [assumption|]).
  intros k c c' Hc Hc'.
  rewrite channel_values_embed_pixels, nth_error_overwrite, Hc in Hc'.
  cbn [option_map] in Hc'. injection Hc' as <-.
  assert (R : in_byte_range c).
  { pose proof (valid_channel_values img V) as F.
    rewrite Forall_forall in F. apply F. eapply nth_error_In; eauto. }
  destruct (k <? length d); [|lia].
  rewrite (set_lsb_value _ _ R). unfold in_byte_range in R.
  pose proof (Z.div_mod c 2 ltac:(lia)) as D.
  pose proof (Z.mod_pos_bound c 2 ltac:(lia)) as M.
  destruct (nth k d false); simpl Z.b2z; lia.
Qed.

Lemma written_image_is_valid_witness :
  exists f,
    embed_data_in_image cover_rgba_6 (text_to_binary text_A) ExtBmp []
    = (true, Some f)
    /\ valid_image (open f) = true
    /\ size (open f) = (6, 1).
Proof.
  eexists. split; [reflexivity|].
  destruct (written_image_is_valid cover_rgba_6 (text_to_binary text_A)
              ExtBmp [] _ eq_refl eq_refl) as (V & S & _).
  split; [exact V|exact S].
Defined.

(** The returned flag, by the capacity test. *)
Lemma embed_flag img data ext password :
  fst (embed_data_in_image img data ext password) = true
  <-> required_bits data password <= pixel_count img * channels img.
Proof.
  rewrite <- length_protect.
  destruct (le_gt_dec (length (protect password data ++ delimiter))
              (pixel_count img * channels img)) as [L|L].
  - rewrite (embed_within_capacity _ _ _ _ L). simpl. tauto.
  - rewrite (embed_over_capacity _ _ _ _ L). simpl. split; [discriminate|lia].
Qed.

Lemma preview_capacity_bits img :
  valid_image img = true ->
  preview_capacity img = (pixel_count img * channels img) / 8.
Proof.
  intros V. pose proof (valid_image_count img V) as C.
  unfold preview_capacity, channels, pixel_count in *.
  destruct (getdata img); now rewrite C.
Qed.

(** X10.  The capacity in bytes shown under the cover preview overstates
    what can be hidden: a text of one-byte characters is accepted exactly
    when its length plus 2 (plus 66 with a password) is at most the number
    shown; a text as long as the number shown is always refused. *)
Theorem shown_capacity_overstates img (t : text) ext password :
  valid_image img = true ->
  Forall fits_byte t ->
  (fst (embed_data_in_image img (text_to_binary t) ext password) = true
   <-> length t + match password with [] => 2 | _ :: _ => 66 end
       <= preview_capacity img)
  /\ (length t = preview_capacity img ->
      embed_data_in_image img (text_to_binary t) ext password = (false, None)).
Proof.
  intros V F. rewrite embed_flag, (preview_capacity_bits img V).
  unfold required_bits. rewrite (length_text_to_binary_bytes t F).
  set (n := pixel_count img * channels img).
  pose proof (Nat.div_mod_eq n 8) as D.
  pose proof (Nat.mod_upper_bound n 8 ltac:(lia)) as U.
  assert (R : length (protect password (text_to_binary t) ++ delimiter)
              = match password with [] => 0 | _ :: _ => 512 end
                + 8 * length t + 16).
  { rewrite length_protect. unfold required_bits.
    now rewrite (length_text_to_binary_bytes t F). }
  split.
  - destruct password; lia.
  - intros L. apply embed_over_capacity. rewrite R. fold n.
    destruct password; lia.
Qed.

Lemma shown_capacity_overstates_witness :
  preview_capacity cover_rgba_6 = 3
  /\ embed_data_in_image cover_rgba_6 (text_to_binary [65; 66; 67]%N) ExtPng []
     = (false, None).
Proof.
  split; [reflexivity|].
  refine (proj2 (shown_capacity_overstates cover_rgba_6 [65; 66; 67]%N
                   ExtPng [] eq_refl _) eq_refl).
  repeat constructor; unfold fits_byte; lia.
Defined.

(** X11.  Whatever [extract_data_from_image] returns would have passed the
    capacity test of [embed_data_in_image] on the same image and with the
    same password; an image with fewer than 16 channel values gives
    nothing, whatever the password. *)
Theorem extracted_data_would_fit img password x :
  extract_data_from_image img password = Some x ->
  required_bits x password <= pixel_count img * channels img
  /\ 16 <= pixel_count img * channels img.
Proof.
  unfold extract_data_from_image. rewrite <- (length_scan img).
  destruct (Py.find delimiter (scan img)) as [i|] eqn:F; [|discriminate].
  apply PyFacts.find_Some in F as (_ & _ & L). rewrite length_delimiter in L.
  intros Vf. apply verify_Some in Vf as [[-> ->]|(Hp & H512 & ->)].
  - unfold required_bits. rewrite length_firstn. lia.
  - unfold required_bits. rewrite length_skipn.
    rewrite length_firstn in *. destruct password; [congruence|]. lia.
Qed.

Lemma extracted_data_would_fit_witness :
  extract_data_from_image image_delimiter_only [] = Some []
  /\ required_bits [] [] <= pixel_count image_delimiter_only
                            * channels image_delimiter_only.
Proof.
  split; [reflexivity|].
  exact (proj1 (extracted_data_would_fit image_delimiter_only [] [] eq_refl)).
Defined.

Lemma pixel_count_convert_RGB img :
  pixel_count (convert_RGB img) = pixel_count img.
Proof.
  unfold convert_RGB, pixel_count.
  destruct (getdata img) eqn:G; cbn [getdata]; rewrite ?G, ?length_map;
    reflexivity.
Qed.

(** Reading an RGBA stream three channels per pixel. *)
Lemma scan_convert_RGB img :
  channels img = 4 -> scan (convert_RGB img) = drop_fourth (scan img).
Proof.
  unfold channels, scan, convert_RGB.
  destruct (getdata img) as [px|px]; [discriminate|]. intros _.
  cbn [getdata]. induction px as [|p px IH]; [reflexivity|].
  destruct p as [[[r g] b] a]. cbn [map flat_map app drop_fourth].
  now rewrite IH.
Qed.

(** X14.  An RGBA cover written to a [.bmp] path: the capacity test
    counted 4 bits per pixel, but the file has 3 channels per pixel and a
    scan of it reads the embedded stream (followed by the untouched bits of
    the cover) with every fourth bit missing. *)
Theorem rgba_to_bmp_loses_every_fourth_bit img data password f :
  channels img = 4 ->
  embed_data_in_image img data ExtBmp password = (true, Some f) ->
  channels (open f) = 3
  /\ length (scan (open f)) = 3 * pixel_count img
  /\ exists tail,
       length ((protect password data ++ delimiter) ++ tail)
       = 4 * pixel_count img
       /\ scan (open f)
          = drop_fourth ((protect password data ++ delimiter) ++ tail).
Proof.
  intros C4 E. set (d := protect password data ++ delimiter) in *.
  assert (L : length d <= pixel_count img * channels img).
  { destruct (le_gt_dec (length d) (pixel_count img * channels img)) as [L|L];
      [exact L|].
    rewrite (embed_over_capacity img data ExtBmp password L) in E.
    discriminate. }
  rewrite (embed_within_capacity img data ExtBmp password L) in E.
  injection E as <-. fold d. unfold save, open. rewrite C4. cbn [Nat.eqb contents].
  destruct (embed_pixels_shape d img) as (_ & Ch & P). rewrite C4 in Ch.
  assert (C3 : channels (convert_RGB (embed_pixels d img)) = 3).
  { unfold channels, convert_RGB in *.
    destruct (getdata (embed_pixels d img)); [discriminate|reflexivity]. }
  split; [exact C3|].
  rewrite (scan_convert_RGB _ Ch), (scan_embed_pixels d img L).
  split.
  - rewrite <- (scan_embed_pixels d img L), <- (scan_convert_RGB _ Ch).
    rewrite length_scan, C3, pixel_count_convert_RGB, P. lia.
  - exists (skipn (length d) (scan img)). split; [|reflexivity].
    rewrite length_app, length_skipn, length_scan, C4. lia.
Qed.

Lemma rgba_to_bmp_loses_every_fourth_bit_witness :
  exists f,
    embed_data_in_image cover_rgba_6 (text_to_binary text_A) ExtBmp []
    = (true, Some f)
    /\ channels (open f) = 3
    /\ length (scan (open f)) = 18.
Proof.
  eexists. split; [reflexivity|].
  destruct (rgba_to_bmp_loses_every_fourth_bit cover_rgba_6
              (text_to_binary text_A) [] _ eq_refl eq_refl) as (C & L & _).
  split; [exact C|exact L].
Defined.

End ImageFacts.

(** ** The analysis of an image *)

Module AnalysisFacts.

Import BitStream BitStreamFacts Engine EmbedFacts FrameFacts DigestFacts
       ExtractFacts GateFacts EndToEnd ImageFacts Analysis Samples.

(** Whenever extraction with a password returns something, extraction
    without a password returns at least 512 bits. *)
Lemma extract_without_password img password x :
  password <> [] ->
  extract_data_from_image img password = Some x ->
  exists y, extract_data_from_image img [] = Some y /\ 512 <= length y.
Proof.
  unfold extract_data_from_image. intros Hp.
  destruct (Py.find delimiter (scan img)) as [i|]; [|discriminate].
  intros V. apply verify_Some in V as [[-> _]|(_ & L & _)]; [congruence|].
  eexists. split; [reflexivity|exact L].
Qed.

Lemma truthy_spec x : truthy x = true <-> exists y, x = Some y /\ 0 < length y.
Proof.
  split.
  - destruct x as [[|b y]|]; try discriminate. intros _.
    eexists. split; [reflexivity|simpl; lia].
  - intros (y & -> & L). destruct y; [simpl in L; lia|reflexivity].
Qed.

Lemma common_passwords_not_empty pwd : In pwd common_passwords -> pwd <> [].
Proof.
  unfold common_passwords. cbn [In].
  intros [<-|[<-|[<-|[<-|[]]]]]; discriminate.
Qed.

(** X12.  The detection step of [analyze_image] never reports "HIDDEN DATA
    DETECTED! (Password protected)": when extraction with one of the
    common passwords gives data, extraction with the empty password, which
    is tried first, has already given at least 512 bits. *)
Theorem detection_never_reports_password img :
  detect_hidden_data img <> DetectedPasswordProtected.
Proof.
  unfold detect_hidden_data.
  destruct (truthy (extract_data_from_image img [])) eqn:T0; [discriminate|].
  destruct (existsb _ common_passwords) eqn:X; [exfalso|discriminate].
  apply existsb_exists in X as (pwd & Hin & T).
  apply truthy_spec in T as (x & E & _).
  destruct (extract_without_password img pwd x
              (common_passwords_not_empty _ Hin) E) as (y & E0 & L).
  assert (T1 : truthy (extract_data_from_image img []) = true)
    by (apply truthy_spec; exists y; split; [exact E0|lia]).
  congruence.
Qed.

(** X13.  An image holding data embedded under a password (written with
    every channel kept) is reported as "HIDDEN DATA DETECTED! (No password
    required)". *)
Theorem protected_image_reported_as_open img data ext password f :
  keeps_channels img ext ->
  password <> [] ->
  embed_data_in_image img data ext password = (true, Some f) ->
  detect_hidden_data (open f) = DetectedNoPassword.
Proof.
  intros K Hp E.
  destruct (find_delimiter_app (protect password data)) as (i & F & L).
  pose proof (extract_embedded img data ext password f i [] K E F) as X.
  cbn [verify] in X.
  assert (Hi : 504 < i).
  { apply PyFacts.find_Some in F as (O & _ & _).
    destruct password as [|b pw]; [congruence|]. unfold protect in O.
    rewrite <- app_assoc in O.
    apply (delimiter_after_ascii _ _ _ (password_hash_ascii (b :: pw))) in O.
    unfold password_hash in O. rewrite length_hexdigest in O. lia. }
  assert (T : truthy (extract_data_from_image (open f) []) = true).
  { apply truthy_spec. eexists. split; [exact X|].
    rewrite length_firstn. lia. }
  unfold detect_hidden_data. now rewrite T.
Qed.

Lemma protected_image_reported_as_open_witness :
  exists f,
    embed_data_in_image cover_rgb_179 (text_to_binary text_A) ExtPng pw_abc123
    = (true, Some f)
    /\ detect_hidden_data (open f) = DetectedNoPassword.
Proof.
  assert (C : length (protect pw_abc123 (text_to_binary text_A) ++ delimiter)
              <= pixel_count cover_rgb_179 * channels cover_rgb_179).
  { rewrite length_protect. apply Nat.leb_le. vm_compute. reflexivity. }
  pose proof (embed_within_capacity cover_rgb_179 (text_to_binary text_A)
                ExtPng pw_abc123 C) as E.
  eexists. split; [exact E|].
  apply (protected_image_reported_as_open cover_rgb_179
           (text_to_binary text_A) ExtPng pw_abc123 _); [|discriminate|exact E].
  right. discriminate.
Defined.

(** *** The LSB sample *)

Lemma In_range_10 n i : In i (Py.range n 10) -> i < n.
Proof.
  unfold Py.range. rewrite in_map_iff. intros (k & <- & Hk).
  apply in_seq in Hk. pose proof (Nat.div_mod_eq (n + 10 - 1) 10) as D.
  pose proof (Nat.mod_upper_bound (n + 10 - 1) 10 ltac:(lia)). lia.
Qed.

Lemma length_range_10 n : length (Py.range n 10) = (n + 9) / 10.
Proof.
  unfold Py.range. rewrite length_map, length_seq. f_equal. lia.
Qed.

Lemma land_1_bit r : Z.land r 1 = 0%Z \/ Z.land r 1 = 1%Z.
Proof.
  assert (E : Z.land r 1 = (r mod 2)%Z) by apply (Z.land_ones r 1 ltac:(lia)).
  rewrite E. pose proof (Z.mod_pos_bound r 2 ltac:(lia)). lia.
Qed.

(** Sampling at indices inside the pixel list never fails and gives three
    bits per index. *)
Lemma sample_at_total (pixels : list rgb) indices :
  Forall (fun i => i < length pixels) indices ->
  exists bits,
    sample_at pixels indices = Some bits
    /\ length bits = 3 * length indices
    /\ Forall (fun b => b = 0%Z \/ b = 1%Z) bits.
Proof.
  induction 1 as [|i indices Hi _ (bits & E & L & B)].
  - exists []. repeat split; constructor.
  - cbn [sample_at]. destruct (nth_error pixels i) as [[[r g] b]|] eqn:N.
    + rewrite E. eexists. split; [reflexivity|]. split.
      * simpl. lia.
      * repeat (constructor; [apply land_1_bit|]). exact B.
    + apply nth_error_None in N. lia.
Qed.

(** The pixels after the sampled ones have no say. *)
Lemma sample_at_app (pixels more : list rgb) indices :
  Forall (fun i => i < length pixels) indices ->
  sample_at (pixels ++ more) indices = sample_at pixels indices.
Proof.
  induction 1 as [|i indices Hi _ IH]; [reflexivity|].
  cbn [sample_at]. now rewrite nth_error_app1, IH by exact Hi.
Qed.

Lemma range_10_in_bounds n m :
  n <= m -> Forall (fun i => i < m) (Py.range n 10).
Proof.
  intros H. apply Forall_forall. intros i Hi. apply In_range_10 in Hi. lia.
Qed.

(** X15.  The sampling loop of [analyze_image], on the image as opened,
    never indexes outside the pixel list and collects at most 300 values,
    each 0 or 1.  For an image of mode ['RGB'] these are three values for
    every tenth pixel among the first 1000, and with 1000 pixels or more
    they do not depend on the pixels after the first 1000.  For an image of
    any other mode ('RGBA', grayscale, palette, ...) nothing is
    collected. *)
Theorem lsb_sample_stays_in_bounds (img : opened_image) :
  exists bits,
    lsb_bits img = Some bits
    /\ length bits <= 300
    /\ Forall (fun b => b = 0%Z \/ b = 1%Z) bits
    /\ match img with
       | OpenedRGB pixels =>
           length bits = 3 * ((Nat.min 1000 (length pixels) + 9) / 10)
           /\ (forall more,
                 1000 <= length pixels ->
                 lsb_bits (OpenedRGB (pixels ++ more)) = Some bits)
       | OpenedOther _ => bits = []
       end.
Proof.
  destruct img as [px|n]; cbn [lsb_bits].
  - destruct (Nat.ltb_spec 0 (length px)) as [P|P].
    + destruct (sample_at_total px (Py.range (Nat.min 1000 (length px)) 10))
        as (bits & E & L & B);
        [apply range_10_in_bounds; lia|].
      rewrite length_range_10 in L.
      pose proof (Nat.div_mod_eq (Nat.min 1000 (length px) + 9) 10) as D.
      exists bits. split; [exact E|]. split; [lia|]. split; [exact B|].
      split; [exact L|].
      intros more H1000. rewrite length_app.
      destruct (Nat.ltb_spec 0 (length px + length more)); [|lia].
      replace (Nat.min 1000 (length px + length more)) with 1000 by lia.
      replace (Nat.min 1000 (length px)) with 1000 in E by lia.
      rewrite sample_at_app; [exact E|]. apply range_10_in_bounds. lia.
    + exists []. assert (H : length px = 0) by lia.
      split; [reflexivity|]. split; [simpl; lia|]. split; [constructor|].
      split; [rewrite H; reflexivity|]. intros more. lia.
  - assert (E : flat_map (fun _ : nat => @nil Z) (Py.range (Nat.min 1000 n) 10)
                = []).
    { induction (Py.range (Nat.min 1000 n) 10); [reflexivity|exact IHl]. }
    rewrite E. exists [].
    split; [now destruct (0 <? n)|]. split; [simpl; lia|].
    split; [constructor|reflexivity].
Qed.

End AnalysisFacts.
